(** * Wave2Joy: the haptic pattern generator of [script.js]

    A shallow embedding of the [patternGenerator] object and of the page
    around it (the session variables, the gamepad and button listeners,
    [gameLoop], [updateVisualizer] and the form), followed by the properties
    of the generator and of the session.

    Numbers.  A JavaScript Number is modelled as a real number ([R]):
    arithmetic is exact, and rounding, infinities and NaN are not
    represented.  Where the source divides by a configuration value the
    theorems that depend on the quotient assume the value is positive, and
    the theorems about the page assume [peakTime] positive, which keeps the
    code away from 0/0.  What the clamp does to a value that is not a real
    number is described apart, by [Number] and [clampValue].
    The two integer-valued fields ([cyclePhaseIndex], [lastPulseCycleIndex])
    are integers ([Z]).  The decimal constants met in the scenarios below are
    checked against binary64 arithmetic in [binary64_scenario_constants].

    Randomness.  [Math.random()] is an oracle: an infinite sequence of draws
    and a cursor, threaded through [updateStochastic]. *)

From Stdlib Require Import Reals Lra Lia ZArith List Floats String.
Import ListNotations.

#[local] Set Warnings "-inexact-float".

Open Scope R_scope.

(** ** JavaScript arithmetic *)

Module JS.

(** [Math.floor] *)
Definition floor (x : R) : Z := Int_part x.

(** Rounding toward zero, the quotient behind the [%] operator. *)
Definition trunc (x : R) : Z :=
  if Rle_dec 0 x then floor x else (- floor (- x))%Z.

(** [x % y]: the remainder has the sign of the dividend. *)
Definition rem (x y : R) : R := x - y * IZR (trunc (x / y)).

(** [Math.min] and [Math.max] *)
Definition min (x y : R) : R := Rmin x y.
Definition max (x y : R) : R := Rmax x y.

End JS.

(** ** Data *)

(** [config.mode] is the value of the mode selector; every string that is
    not one of the six known modes is [other_mode]. *)
Inductive Mode : Set :=
| stochastic
| breathing_pulse
| cycle
| constant_weak
| constant_strong
| constant_max
| other_mode.

(** ['gap'] and ['buzz'] *)
Inductive Phase : Set := Gap | Buzz.

(** ['left'] and ['right'] *)
Inductive Motor : Set := MotorLeft | MotorRight.

(** The global [config] object, as filled by [updateConfigFromUI]. *)
Record Config : Type := mkConfig {
  mode : Mode;
  sessionLength : R;
  peakTime : R;
  weakIntensity : R;
  strongIntensity : R;
  maxIntensity : R;
  buzzMin : R;
  buzzMax : R;
  maxGap : R;
  breathingPulseMinIntensity : R;
  breathingPulsePeriod : R;
  breathingPulseSyncPeriod : R
}.

(** The fields of the [patternGenerator] object. *)
Record Generator : Type := mkGenerator {
  currentTime : R;
  stochasticPhase : Phase;
  stochasticPhaseEndTime : R;
  stochasticNextMotor : Motor;
  pulseTime : R;
  cyclePhaseIndex : Z;
  lastPulseCycleIndex : Z;
  breathingTime : R
}.

(** The object returned by every update function: [{ left, right }]. *)
Record Output : Type := mkOutput { left : R; right : R }.

(** The source of [Math.random()]. *)
Record Random : Type := mkRandom { draws : nat -> R; cursor : nat }.

Definition Math_random (g : Random) : R * Random :=
  (draws g (cursor g), {| draws := draws g; cursor := S (cursor g) |}).

(** Every draw lies in [0, 1). *)
Definition unit_draws (g : Random) : Prop :=
  forall n : nat, 0 <= draws g n < 1.

(** ** Constants *)

Definition CONSTANT_PULSE_BUZZ_MS : R := 200.
Definition CONSTANT_PULSE_GAP_MS : R := 100.

(** ** Field updates *)

Definition set_currentTime (v : R) (this : Generator) : Generator :=
  {| currentTime := v;
     stochasticPhase := stochasticPhase this;
     stochasticPhaseEndTime := stochasticPhaseEndTime this;
     stochasticNextMotor := stochasticNextMotor this;
     pulseTime := pulseTime this;
     cyclePhaseIndex := cyclePhaseIndex this;
     lastPulseCycleIndex := lastPulseCycleIndex this;
     breathingTime := breathingTime this |}.

Definition set_stochasticPhase (v : Phase) (this : Generator) : Generator :=
  {| currentTime := currentTime this;
     stochasticPhase := v;
     stochasticPhaseEndTime := stochasticPhaseEndTime this;
     stochasticNextMotor := stochasticNextMotor this;
     pulseTime := pulseTime this;
     cyclePhaseIndex := cyclePhaseIndex this;
     lastPulseCycleIndex := lastPulseCycleIndex this;
     breathingTime := breathingTime this |}.

Definition set_stochasticPhaseEndTime (v : R) (this : Generator) : Generator :=
  {| currentTime := currentTime this;
     stochasticPhase := stochasticPhase this;
     stochasticPhaseEndTime := v;
     stochasticNextMotor := stochasticNextMotor this;
     pulseTime := pulseTime this;
     cyclePhaseIndex := cyclePhaseIndex this;
     lastPulseCycleIndex := lastPulseCycleIndex this;
     breathingTime := breathingTime this |}.

Definition set_stochasticNextMotor (v : Motor) (this : Generator) : Generator :=
  {| currentTime := currentTime this;
     stochasticPhase := stochasticPhase this;
     stochasticPhaseEndTime := stochasticPhaseEndTime this;
     stochasticNextMotor := v;
     pulseTime := pulseTime this;
     cyclePhaseIndex := cyclePhaseIndex this;
     lastPulseCycleIndex := lastPulseCycleIndex this;
     breathingTime := breathingTime this |}.

Definition set_pulseTime (v : R) (this : Generator) : Generator :=
  {| currentTime := currentTime this;
     stochasticPhase := stochasticPhase this;
     stochasticPhaseEndTime := stochasticPhaseEndTime this;
     stochasticNextMotor := stochasticNextMotor this;
     pulseTime := v;
     cyclePhaseIndex := cyclePhaseIndex this;
     lastPulseCycleIndex := lastPulseCycleIndex this;
     breathingTime := breathingTime this |}.

Definition set_cyclePhaseIndex (v : Z) (this : Generator) : Generator :=
  {| currentTime := currentTime this;
     stochasticPhase := stochasticPhase this;
     stochasticPhaseEndTime := stochasticPhaseEndTime this;
     stochasticNextMotor := stochasticNextMotor this;
     pulseTime := pulseTime this;
     cyclePhaseIndex := v;
     lastPulseCycleIndex := lastPulseCycleIndex this;
     breathingTime := breathingTime this |}.

Definition set_lastPulseCycleIndex (v : Z) (this : Generator) : Generator :=
  {| currentTime := currentTime this;
     stochasticPhase := stochasticPhase this;
     stochasticPhaseEndTime := stochasticPhaseEndTime this;
     stochasticNextMotor := stochasticNextMotor this;
     pulseTime := pulseTime this;
     cyclePhaseIndex := cyclePhaseIndex this;
     lastPulseCycleIndex := v;
     breathingTime := breathingTime this |}.

Definition set_breathingTime (v : R) (this : Generator) : Generator :=
  {| currentTime := currentTime this;
     stochasticPhase := stochasticPhase this;
     stochasticPhaseEndTime := stochasticPhaseEndTime this;
     stochasticNextMotor := stochasticNextMotor this;
     pulseTime := pulseTime this;
     cyclePhaseIndex := cyclePhaseIndex this;
     lastPulseCycleIndex := lastPulseCycleIndex this;
     breathingTime := v |}.

(** ** The generator *)

(** The object literal: the state of a generator that was just built. *)
Definition patternGenerator : Generator :=
  {| currentTime := 0;
     stochasticPhase := Gap;
     stochasticPhaseEndTime := 0;
     stochasticNextMotor := MotorLeft;
     pulseTime := 0;
     cyclePhaseIndex := 0;
     lastPulseCycleIndex := -1;
     breathingTime := 0 |}.

(** [start]: seven assignments; [stochasticNextMotor] is not among them. *)
Definition start (this : Generator) : Generator :=
  let this := set_currentTime 0 this in
  let this := set_stochasticPhase Gap this in
  let this := set_stochasticPhaseEndTime 0 this in
  let this := set_pulseTime 0 this in
  let this := set_cyclePhaseIndex 0 this in
  let this := set_lastPulseCycleIndex (-1) this in
  let this := set_breathingTime 0 this in
  this.

Definition updateStochastic (config : Config) (dt : R)
    (this : Generator) (g : Random) : Output * Generator * Random :=
  let this := set_currentTime (currentTime this + dt) this in
  let '(this, g) :=
    if Rge_dec (currentTime this) (stochasticPhaseEndTime this) then
      match stochasticPhase this with
      | Gap =>
          let this := set_stochasticPhase Buzz this in
          let '(r, g) := Math_random g in
          let buzzDuration := r * (buzzMax config - buzzMin config) + buzzMin config in
          let this :=
            set_stochasticPhaseEndTime (currentTime this + buzzDuration / 1000) this in
          let '(r, g) := Math_random g in
          let this :=
            set_stochasticNextMotor (if Rlt_dec r 0.5 then MotorLeft else MotorRight) this in
          (this, g)
      | Buzz =>
          let this := set_stochasticPhase Gap this in
          let '(r, g) := Math_random g in
          let gapDuration := r * maxGap config in
          let this :=
            set_stochasticPhaseEndTime (currentTime this + gapDuration / 1000) this in
          (this, g)
      end
    else (this, g) in
  match stochasticPhase this with
  | Buzz =>
      let progress := JS.min 1 (currentTime this / peakTime config) in
      let easedProgress := progress * progress in
      let globalMultiplier := 0.3 + 0.7 * easedProgress in
      let '(r, g) := Math_random g in
      let baseIntensity :=
        r * (strongIntensity config - weakIntensity config) + weakIntensity config in
      let targetIntensity := baseIntensity * globalMultiplier in
      match stochasticNextMotor this with
      | MotorLeft => ({| left := targetIntensity; right := 0 |}, this, g)
      | MotorRight => ({| left := 0; right := targetIntensity |}, this, g)
      end
  | Gap => ({| left := 0; right := 0 |}, this, g)
  end.

(** The divisor of a frequency: [(period > 0 ? period : 1)]. *)
Definition periodOrOne (period : R) : R :=
  if Rgt_dec period 0 then period else 1.

Definition updateBreathingPulse (config : Config) (dt : R)
    (this : Generator) : Output * Generator :=
  let this := set_breathingTime (breathingTime this + dt) this in
  let basePeriod := breathingPulsePeriod config in
  let syncPeriod := breathingPulseSyncPeriod config in
  let baseFreq := 1 / periodOrOne basePeriod in
  let beatFreq := 1 / periodOrOne syncPeriod in
  let freqLeft := baseFreq in
  let freqRight := baseFreq + beatFreq in
  let center := (maxIntensity config + breathingPulseMinIntensity config) / 2 in
  let amplitude := (maxIntensity config - breathingPulseMinIntensity config) / 2 in
  let phaseLeft := 2 * PI * freqLeft * breathingTime this in
  let intensityLeft := center + amplitude * sin phaseLeft in
  let phaseRight := 2 * PI * freqRight * breathingTime this in
  let intensityRight := center + amplitude * sin phaseRight in
  ({| left := intensityLeft; right := intensityRight |}, this).

Definition updateConstant (config : Config) (dt : R) (mode : Mode)
    (this : Generator) : Output * Generator :=
  let this := set_pulseTime (pulseTime this + dt * 1000) this in
  let totalPulseDuration := CONSTANT_PULSE_BUZZ_MS + CONSTANT_PULSE_GAP_MS in
  let phaseTime := JS.rem (pulseTime this) totalPulseDuration in
  if Rlt_dec phaseTime CONSTANT_PULSE_BUZZ_MS then
    let intensity :=
      match mode with
      | constant_weak => weakIntensity config
      | constant_strong => strongIntensity config
      | constant_max => maxIntensity config
      | _ => 0
      end in
    ({| left := intensity; right := intensity |}, this)
  else ({| left := 0; right := 0 |}, this).

Definition updateCycle (config : Config) (dt : R)
    (this : Generator) : Output * Generator :=
  let this := set_pulseTime (pulseTime this + dt * 1000) this in
  let totalPulseDuration := CONSTANT_PULSE_BUZZ_MS + CONSTANT_PULSE_GAP_MS in
  let currentPulseCycleIndex := JS.floor (pulseTime this / totalPulseDuration) in
  let this :=
    if (currentPulseCycleIndex >? lastPulseCycleIndex this)%Z then
      let this := set_cyclePhaseIndex (Z.rem (cyclePhaseIndex this + 1) 4) this in
      set_lastPulseCycleIndex currentPulseCycleIndex this
    else this in
  let phaseTime := JS.rem (pulseTime this) totalPulseDuration in
  if Rlt_dec phaseTime CONSTANT_PULSE_BUZZ_MS then
    match cyclePhaseIndex this with
    | 0%Z => ({| left := strongIntensity config; right := strongIntensity config |}, this)
    | 1%Z => ({| left := maxIntensity config; right := maxIntensity config |}, this)
    | 2%Z => ({| left := maxIntensity config; right := 0 |}, this)
    | 3%Z => ({| left := 0; right := maxIntensity config |}, this)
    | _ => ({| left := 0; right := 0 |}, this)
    end
  else ({| left := 0; right := 0 |}, this).

(** ** The driver: the [switch] of [gameLoop] and its clamp *)

Definition advance (config : Config) (dt : R)
    (this : Generator) (g : Random) : Output * Generator * Random :=
  match mode config with
  | stochastic => updateStochastic config dt this g
  | breathing_pulse =>
      let '(o, this) := updateBreathingPulse config dt this in (o, this, g)
  | cycle =>
      let '(o, this) := updateCycle config dt this in (o, this, g)
  | constant_weak | constant_strong | constant_max =>
      let '(o, this) := updateConstant config dt (mode config) this in (o, this, g)
  | other_mode => ({| left := 0; right := 0 |}, this, g)
  end.

Definition clamp (motorValues : Output) : Output :=
  {| left := JS.max 0 (JS.min 255 (left motorValues));
     right := JS.max 0 (JS.min 255 (right motorValues)) |}.

(** The outputs of successive calls, one per [dt], before the clamp. *)
Fixpoint run (config : Config) (dts : list R)
    (this : Generator) (g : Random) : list Output :=
  match dts with
  | [] => []
  | dt :: dts =>
      let '(o, this, g) := advance config dt this g in
      o :: run config dts this g
  end.

(** The generator after successive calls. *)
Fixpoint run_state (config : Config) (dts : list R)
    (this : Generator) (g : Random) : Generator * Random :=
  match dts with
  | [] => (this, g)
  | dt :: dts =>
      let '(_, this, g) := advance config dt this g in
      run_state config dts this g
  end.

(** ** Vocabulary of the properties *)

(** The intensity [updateConstant] selects by [mode]. *)
Definition selectedIntensity (config : Config) (m : Mode) : R :=
  match m with
  | constant_weak => weakIntensity config
  | constant_strong => strongIntensity config
  | constant_max => maxIntensity config
  | _ => 0
  end.

Definition both (v : R) : Output := {| left := v; right := v |}.

Definition silent : Output := {| left := 0; right := 0 |}.

(** The [switch] of [updateCycle]: what a buzz window emits in each phase. *)
Definition phaseOutput (config : Config) (index : Z) : Output :=
  match index with
  | 0%Z => both (strongIntensity config)
  | 1%Z => both (maxIntensity config)
  | 2%Z => {| left := maxIntensity config; right := 0 |}
  | 3%Z => {| left := 0; right := maxIntensity config |}
  | _ => silent
  end.

(** The sequencer of [updateCycle]: the two index fields after a call that
    finds the clock in pulse period [n]. *)
Definition sequence (n : Z) (this : Generator) : Generator :=
  if (n >? lastPulseCycleIndex this)%Z then
    set_lastPulseCycleIndex n
      (set_cyclePhaseIndex (Z.rem (cyclePhaseIndex this + 1) 4) this)
  else this.

(** The pulse clock, in milliseconds, read by each call of a run. *)
Fixpoint clock (t : R) (dts : list R) : list R :=
  match dts with
  | [] => []
  | dt :: dts => (t + dt * 1000) :: clock (t + dt * 1000) dts
  end.

(** What the code returns in cycle mode when its clock reads [t]. *)
Definition rotated (config : Config) (t : R) : Output :=
  if Rlt_dec (JS.rem t 300) 200
  then phaseOutput config ((JS.floor (t / 300) + 1) mod 4)
  else silent.

(** The sequencer is up to date with the clock, or the generator was just
    started. *)
Definition in_step (this : Generator) : Prop :=
  0 <= pulseTime this
  /\ cyclePhaseIndex this = ((lastPulseCycleIndex this + 1) mod 4)%Z
  /\ (lastPulseCycleIndex this = JS.floor (pulseTime this / 300)
      \/ (lastPulseCycleIndex this = (-1)%Z /\ pulseTime this = 0)).

(** The envelope of lines 54-56 (and of [updateVisualizer]) at session time [t]. *)
Definition globalMultiplier (config : Config) (t : R) : R :=
  let progress := JS.min 1 (t / peakTime config) in
  let easedProgress := progress * progress in
  0.3 + 0.7 * easedProgress.

(** The jittered intensity drawn on a buzz tick from the draw [r]. *)
Definition baseIntensity (config : Config) (r : R) : R :=
  r * (strongIntensity config - weakIntensity config) + weakIntensity config.

(** At most one motor runs. *)
Definition one_sided (o : Output) : Prop := left o = 0 \/ right o = 0.

Definition center (config : Config) : R :=
  (maxIntensity config + breathingPulseMinIntensity config) / 2.

Definition amplitude (config : Config) : R :=
  (maxIntensity config - breathingPulseMinIntensity config) / 2.

(** One channel of the synthesis at time [t], for a frequency [freq]. *)
Definition tone (config : Config) (freq t : R) : R :=
  center config + amplitude config * sin (2 * PI * freq * t).

Definition keeps_stochastic (this this' : Generator) : Prop :=
  currentTime this' = currentTime this
  /\ stochasticPhase this' = stochasticPhase this
  /\ stochasticPhaseEndTime this' = stochasticPhaseEndTime this
  /\ stochasticNextMotor this' = stochasticNextMotor this.

Definition keeps_breathing (this this' : Generator) : Prop :=
  breathingTime this' = breathingTime this.

Definition keeps_pulse (this this' : Generator) : Prop :=
  pulseTime this' = pulseTime this.

Definition keeps_sequencer (this this' : Generator) : Prop :=
  cyclePhaseIndex this' = cyclePhaseIndex this
  /\ lastPulseCycleIndex this' = lastPulseCycleIndex this.

(** Two generators that differ at most in a motor choice that a gap hides. *)
Definition agree (this other : Generator) : Prop :=
  this = other
  \/ (stochasticPhase this = Gap
      /\ exists motor : Motor, other = set_stochasticNextMotor motor this).

(** Reduce the field accesses of a goal, and nothing else. *)
Ltac fields :=
  cbn [currentTime stochasticPhase stochasticPhaseEndTime stochasticNextMotor
       pulseTime cyclePhaseIndex lastPulseCycleIndex breathingTime
       set_currentTime set_stochasticPhase set_stochasticPhaseEndTime
       set_stochasticNextMotor set_pulseTime set_cyclePhaseIndex
       set_lastPulseCycleIndex set_breathingTime].

(** The constant-weak scenario: slider values with [weakIntensity] at 50. *)
Definition scenario : Config :=
  {| mode := constant_weak;
     sessionLength := 3600;
     peakTime := 60;
     weakIntensity := 50;
     strongIntensity := 150;
     maxIntensity := 255;
     buzzMin := 100;
     buzzMax := 400;
     maxGap := 500;
     breathingPulseMinIntensity := 0;
     breathingPulsePeriod := 1;
     breathingPulseSyncPeriod := 10 |}.

Definition with_mode (m : Mode) (config : Config) : Config :=
  {| mode := m;
     sessionLength := sessionLength config;
     peakTime := peakTime config;
     weakIntensity := weakIntensity config;
     strongIntensity := strongIntensity config;
     maxIntensity := maxIntensity config;
     buzzMin := buzzMin config;
     buzzMax := buzzMax config;
     maxGap := maxGap config;
     breathingPulseMinIntensity := breathingPulseMinIntensity config;
     breathingPulsePeriod := breathingPulsePeriod config;
     breathingPulseSyncPeriod := breathingPulseSyncPeriod config |}.

(** A source whose every draw is 0, and one whose every draw is 0.75. *)
Definition low_draws : Random := {| draws := fun _ => 0; cursor := 0 |}.
Definition high_draws : Random := {| draws := fun _ => 0.75; cursor := 0 |}.

(** ** The page around the generator *)

(** [Math.round]: the nearest integer, halves upwards. *)
Definition Math_round (x : R) : Z := JS.floor (x + 0.5).

(** [String.prototype.includes] *)
Fixpoint includes (sub s : string) : bool :=
  if String.prefix sub s then true
  else match s with
       | EmptyString => false
       | String _ rest => includes sub rest
       end.

(** [String.prototype.startsWith] *)
Definition startsWith (sub s : string) : bool := String.prefix sub s.

(** The keys of the [sliders] object, in the order of the source. *)
Definition sliders : list string :=
  [ "sessionLength"; "peakTime"; "weakIntensity"; "strongIntensity";
    "maxIntensity"; "buzzMin"; "buzzMax"; "maxGap";
    "breathingPulseMinIntensity"; "breathingPulsePeriod";
    "breathingPulseSyncPeriod" ]%string.

(** The unit that [updateConfigFromUI] writes after a slider's value. *)
Definition suffix (key : string) : string :=
  let suffix := ""%string in
  let suffix :=
    if (includes "Time" key || includes "Gap" key || includes "Buzz" key)%bool
    then "ms"%string else suffix in
  let suffix :=
    if (includes "session" key || includes "peak" key || includes "Period" key)%bool
    then "s"%string else suffix in
  suffix.

(** The value of the mode selector as the [switch] of [gameLoop] reads it. *)
Definition modeOfString (value : string) : Mode :=
  if String.eqb value "stochastic" then stochastic
  else if String.eqb value "breathing_pulse" then breathing_pulse
  else if String.eqb value "cycle" then cycle
  else if String.eqb value "constant_weak" then constant_weak
  else if String.eqb value "constant_strong" then constant_strong
  else if String.eqb value "constant_max" then constant_max
  else other_mode.

(** What [handleModeChange] writes before it calls [updateConfigFromUI]: the
    [hidden] class of three boxes and the value given to the session-length
    slider. *)
Record Panels : Type := mkPanels {
  stochasticSettings_hidden : bool;
  breathingPulseSettings_hidden : bool;
  liveInfoBox_hidden : bool;
  sessionLength_value : R
}.

Definition handleModeChange (mode : string) : Panels :=
  {| stochasticSettings_hidden := negb (String.eqb mode "stochastic");
     breathingPulseSettings_hidden := negb (String.eqb mode "breathing_pulse");
     liveInfoBox_hidden := negb (String.eqb mode "stochastic");
     sessionLength_value :=
       if (startsWith "constant" mode || String.eqb mode "cycle"
           || String.eqb mode "breathing_pulse")%bool
       then 3600 else 300 |}.

(** The session: the module-level variables of the script, the page elements
    it writes, and the calls it makes to the browser.  [Date.now()] is the
    argument [now] of [startSession] and [gameLoop]; the controls of the form
    are the field [form], which [updateConfigFromUI] copies into [config]
    (the value labels it also writes are described by [suffix]). *)
Module Session.

(** The [Gamepad] object; [vibrationActuator] tells whether it has one. *)
Record Gamepad : Type := mkGamepad {
  id : string;
  connected : bool;
  vibrationActuator : bool
}.

(** Calls that leave the script. *)
Inductive Effect : Type :=
| alert (message : string)
| playEffect (duration weakMagnitude strongMagnitude : R)
| requestAnimationFrame.

(** The elements of [ui] that the script writes.  A bar width is a
    percentage, [timer] holds the two numbers of its text. *)
Record UI : Type := mkUI {
  status : string;
  status_color : string;
  startButton_disabled : bool;
  stopButton_disabled : bool;
  leftMotorBar_width : R;
  leftMotorValue : Z;
  rightMotorBar_width : R;
  rightMotorValue : Z;
  timer : Z * R;
  phaseInfo : string;
  intensityInfo : Z
}.

Record World : Type := mkWorld {
  joystick : option Gamepad;
  sessionActive : bool;
  config : Config;
  generator : Generator;
  random : Random;
  sessionStartTime : R;
  lastUpdateTime : R;
  ui : UI;
  form : Config;
  effects : list Effect
}.

Definition set_joystick (v : option Gamepad) (w : World) : World :=
  mkWorld v (sessionActive w) (config w) (generator w) (random w)
    (sessionStartTime w) (lastUpdateTime w) (ui w) (form w) (effects w).

Definition set_sessionActive (v : bool) (w : World) : World :=
  mkWorld (joystick w) v (config w) (generator w) (random w)
    (sessionStartTime w) (lastUpdateTime w) (ui w) (form w) (effects w).

Definition set_config (v : Config) (w : World) : World :=
  mkWorld (joystick w) (sessionActive w) v (generator w) (random w)
    (sessionStartTime w) (lastUpdateTime w) (ui w) (form w) (effects w).

Definition set_generator (v : Generator) (w : World) : World :=
  mkWorld (joystick w) (sessionActive w) (config w) v (random w)
    (sessionStartTime w) (lastUpdateTime w) (ui w) (form w) (effects w).

Definition set_random (v : Random) (w : World) : World :=
  mkWorld (joystick w) (sessionActive w) (config w) (generator w) v
    (sessionStartTime w) (lastUpdateTime w) (ui w) (form w) (effects w).

Definition set_sessionStartTime (v : R) (w : World) : World :=
  mkWorld (joystick w) (sessionActive w) (config w) (generator w) (random w)
    v (lastUpdateTime w) (ui w) (form w) (effects w).

Definition set_lastUpdateTime (v : R) (w : World) : World :=
  mkWorld (joystick w) (sessionActive w) (config w) (generator w) (random w)
    (sessionStartTime w) v (ui w) (form w) (effects w).

Definition set_ui (v : UI) (w : World) : World :=
  mkWorld (joystick w) (sessionActive w) (config w) (generator w) (random w)
    (sessionStartTime w) (lastUpdateTime w) v (form w) (effects w).

(** One more call to the browser, after those already made. *)
Definition emit (e : Effect) (w : World) : World :=
  mkWorld (joystick w) (sessionActive w) (config w) (generator w) (random w)
    (sessionStartTime w) (lastUpdateTime w) (ui w) (form w) (effects w ++ [e]).

Definition set_status (text color : string) (u : UI) : UI :=
  mkUI text color (startButton_disabled u) (stopButton_disabled u)
    (leftMotorBar_width u) (leftMotorValue u) (rightMotorBar_width u)
    (rightMotorValue u) (timer u) (phaseInfo u) (intensityInfo u).

Definition set_buttons (startDisabled stopDisabled : bool) (u : UI) : UI :=
  mkUI (status u) (status_color u) startDisabled stopDisabled
    (leftMotorBar_width u) (leftMotorValue u) (rightMotorBar_width u)
    (rightMotorValue u) (timer u) (phaseInfo u) (intensityInfo u).

Definition set_phaseInfo (text : string) (u : UI) : UI :=
  mkUI (status u) (status_color u) (startButton_disabled u) (stopButton_disabled u)
    (leftMotorBar_width u) (leftMotorValue u) (rightMotorBar_width u)
    (rightMotorValue u) (timer u) text (intensityInfo u).

(** [joystick && joystick.connected && joystick.vibrationActuator] *)
Definition canRumble (w : World) : bool :=
  match joystick w with
  | Some pad => connected pad && vibrationActuator pad
  | None => false
  end.

(** ['gap'.toUpperCase()] and ['buzz'.toUpperCase()] *)
Definition toUpperCase (phase : Phase) : string :=
  match phase with Gap => "GAP" | Buzz => "BUZZ" end.

Definition updateConfigFromUI (w : World) : World := set_config (form w) w.

Definition updateVisualizer (left right elapsed : R) (w : World) : World :=
  let u := ui w in
  let '(phaseText, intensityText) :=
    match mode (config w) with
    | stochastic =>
        let progress :=
          JS.min 1 (currentTime (generator w) / peakTime (config w)) in
        let globalMultiplier := 0.3 + 0.7 * (progress * progress) in
        (toUpperCase (stochasticPhase (generator w)),
         Math_round (globalMultiplier * 100))
    | _ => (phaseInfo u, intensityInfo u)
    end in
  set_ui
    (mkUI (status u) (status_color u) (startButton_disabled u) (stopButton_disabled u)
       (left / 255 * 100) (Math_round left)
       (right / 255 * 100) (Math_round right)
       (JS.floor elapsed, sessionLength (config w))
       phaseText intensityText)
    w.

Definition handleGamepadConnect (gamepad : Gamepad) (w : World) : World :=
  let w := set_joystick (Some gamepad) w in
  set_ui (set_status ("Controller Connected: " ++ id gamepad) "var(--active-color)"
            (ui w)) w.

Definition stopSession (w : World) : World :=
  let w := set_sessionActive false w in
  let w := set_ui (set_buttons false true (ui w)) w in
  let w := if canRumble w then emit (playEffect 50 0 0) w else w in
  let w := updateVisualizer 0 0 0 w in
  set_ui (set_phaseInfo "IDLE" (ui w)) w.

Definition handleGamepadDisconnect (w : World) : World :=
  let w := set_joystick None w in
  let w := set_ui (set_status "Controller Disconnected." "var(--text-color)" (ui w)) w in
  if sessionActive w then stopSession w else w.

Definition startSession (now : R) (w : World) : World :=
  match joystick w with
  | None => emit (alert "Controller not detected.") w
  | Some pad =>
      if negb (connected pad) then emit (alert "Controller not detected.") w
      else if negb (vibrationActuator pad)
      then emit (alert "This controller does not support vibration.") w
      else
        let w := set_sessionActive true w in
        let w := set_ui (set_buttons true false (ui w)) w in
        let w := updateConfigFromUI w in
        let w := set_generator (start (generator w)) w in
        let w := set_sessionStartTime now w in
        let w := set_lastUpdateTime (sessionStartTime w) w in
        emit requestAnimationFrame w
  end.

Definition gameLoop (now : R) (w : World) : World :=
  if negb (sessionActive w) then w
  else
    let dt := (now - lastUpdateTime w) / 1000 in
    let w := set_lastUpdateTime now w in
    let elapsed := (now - sessionStartTime w) / 1000 in
    if Rge_dec elapsed (sessionLength (config w)) then stopSession w
    else
      let '(motorValues, this, g) :=
        advance (config w) dt (generator w) (random w) in
      let w := set_random g (set_generator this w) in
      let motorValues := clamp motorValues in
      let w :=
        if canRumble w
        then emit (playEffect 200 (right motorValues / 255) (left motorValues / 255)) w
        else w in
      let w := updateVisualizer (left motorValues) (right motorValues) elapsed w in
      emit requestAnimationFrame w.

(** Successive animation frames, at the given readings of the clock. *)
Fixpoint frames (nows : list R) (w : World) : World :=
  match nows with
  | [] => w
  | now :: nows => frames nows (gameLoop now w)
  end.

End Session.

(** ** Events of the page *)

(** What the browser can deliver to the script.  [Input] is any change of the
    form, followed by its listener [updateConfigFromUI]; [Lost] is the
    browser clearing the [connected] flag of the pad the script holds, which
    it does before it dispatches [gamepaddisconnected]. *)
Inductive Event : Type :=
| Connect (gamepad : Session.Gamepad)
| Disconnect
| Lost
| StartClick (now : R)
| StopClick
| Input (controls : Config)
| Frame (now : R).

Definition set_form (v : Config) (w : Session.World) : Session.World :=
  Session.mkWorld (Session.joystick w) (Session.sessionActive w) (Session.config w)
    (Session.generator w) (Session.random w) (Session.sessionStartTime w)
    (Session.lastUpdateTime w) (Session.ui w) v (Session.effects w).

Definition lose (w : Session.World) : Session.World :=
  match Session.joystick w with
  | Some pad =>
      Session.set_joystick
        (Some (Session.mkGamepad (Session.id pad) false (Session.vibrationActuator pad))) w
  | None => w
  end.

(** The listeners; a disabled button delivers no click. *)
Definition handle (e : Event) (w : Session.World) : Session.World :=
  match e with
  | Connect gamepad => Session.handleGamepadConnect gamepad w
  | Disconnect => Session.handleGamepadDisconnect w
  | Lost => lose w
  | StartClick now =>
      if Session.startButton_disabled (Session.ui w) then w
      else Session.startSession now w
  | StopClick =>
      if Session.stopButton_disabled (Session.ui w) then w
      else Session.stopSession w
  | Input controls => Session.updateConfigFromUI (set_form controls w)
  | Frame now => Session.gameLoop now w
  end.

Fixpoint handle_all (events : list Event) (w : Session.World) : Session.World :=
  match events with
  | [] => w
  | e :: events => handle_all events (handle e w)
  end.

(** The [elapsed] of [gameLoop]: seconds since the session started. *)
Definition elapsed (now : R) (w : Session.World) : R :=
  (now - Session.sessionStartTime w) / 1000.

(** A vibration command the actuator accepts: magnitudes in [0, 1]; the loop
    asks for 200 ms, a stop for 50 ms of silence. *)
Definition safe_effect (e : Session.Effect) : Prop :=
  match e with
  | Session.playEffect duration weakMagnitude strongMagnitude =>
      0 <= weakMagnitude <= 1 /\ 0 <= strongMagnitude <= 1
      /\ (duration = 200
          \/ (duration = 50 /\ weakMagnitude = 0 /\ strongMagnitude = 0))
  | _ => True
  end.

(** Start is enabled exactly when no session runs, Stop exactly when one does. *)
Definition buttons_follow (w : Session.World) : Prop :=
  Session.startButton_disabled (Session.ui w) = Session.sessionActive w
  /\ Session.stopButton_disabled (Session.ui w) = negb (Session.sessionActive w).

(** The numbers on the page are those of a clamped output. *)
Definition display_in_range (u : Session.UI) : Prop :=
  0 <= Session.leftMotorBar_width u <= 100
  /\ 0 <= Session.rightMotorBar_width u <= 100
  /\ (0 <= Session.leftMotorValue u <= 255)%Z
  /\ (0 <= Session.rightMotorValue u <= 255)%Z.

(** A page on which nothing has happened yet: a pad with an actuator is
    plugged in, the form holds the scenario. *)
Definition idle_page : Session.World :=
  Session.mkWorld
    (Some (Session.mkGamepad "pad" true true)) false scenario patternGenerator
    high_draws 0 0
    (Session.mkUI "" "" false true 0 0 0 0 (0%Z, 0) "IDLE" 0)
    (with_mode stochastic scenario) [].

(** The same page after a click on Start when the clock reads 0. *)
Definition started_page : Session.World := Session.startSession 0 idle_page.

(** A form pushed past the sliders: breathing mode with [maxIntensity] at 300. *)
Definition overdriven : Config :=
  {| mode := breathing_pulse;
     sessionLength := 3600;
     peakTime := 60;
     weakIntensity := 50;
     strongIntensity := 150;
     maxIntensity := 300;
     buzzMin := 100;
     buzzMax := 400;
     maxGap := 500;
     breathingPulseMinIntensity := 0;
     breathingPulsePeriod := 1;
     breathingPulseSyncPeriod := 10 |}.

(** ** Values that are not real numbers *)

(** A motor value as JavaScript has it: a real number, an infinity, or NaN
    (which the generator returns in stochastic mode when [peakTime] is 0 and
    the clock is 0). *)
Inductive Number : Type :=
| NaN
| NegInfinity
| Finite (x : R)
| Infinity.

(** [Math.min] and [Math.max] of two arguments: NaN if either is NaN. *)
Definition Math_min (a b : Number) : Number :=
  match a, b with
  | NaN, _ | _, NaN => NaN
  | NegInfinity, _ | _, NegInfinity => NegInfinity
  | Infinity, v | v, Infinity => v
  | Finite x, Finite y => Finite (Rmin x y)
  end.

Definition Math_max (a b : Number) : Number :=
  match a, b with
  | NaN, _ | _, NaN => NaN
  | Infinity, _ | _, Infinity => Infinity
  | NegInfinity, v | v, NegInfinity => v
  | Finite x, Finite y => Finite (Rmax x y)
  end.

(** One channel of the clamp of [gameLoop]:
    [Math.max(0, Math.min(255, value))]. *)
Definition clampValue (value : Number) : Number :=
  Math_max (Finite 0) (Math_min (Finite 255) value).

(** A change of the form that keeps [peakTime] positive; the other events
    do not touch the form. *)
Definition keeps_peak_positive (e : Event) : Prop :=
  match e with
  | Input controls => 0 < peakTime controls
  | _ => True
  end.

(** * Properties *)

(** ** [Math.floor] and [%] on exact values *)

Section Arithmetic.

Lemma div_nonneg (x y : R) : 0 <= x -> 0 < y -> 0 <= x / y.
Proof. intros Hx Hy. unfold Rdiv. apply Rle_mult_inv_pos; assumption. Qed.

Lemma div_below (x y b : R) : 0 < y -> x < b * y -> x / y < b.
Proof.
  intros Hy Hx. pose proof (Rinv_0_lt_compat y Hy) as Hi.
  replace b with (b * y / y) by (field; lra).
  unfold Rdiv. apply Rmult_lt_compat_r; assumption.
Qed.

Lemma div_above (x y b : R) : 0 < y -> b * y <= x -> b <= x / y.
Proof.
  intros Hy Hx. pose proof (Rinv_0_lt_compat y Hy) as Hi.
  replace b with (b * y / y) by (field; lra).
  unfold Rdiv. apply Rmult_le_compat_r; lra.
Qed.

Lemma floor_spec (x : R) (z : Z) :
  IZR z <= x < IZR z + 1 -> JS.floor x = z.
Proof.
  intros [Hlo Hhi]. unfold JS.floor. symmetry.
  apply Int_part_spec. lra.
Qed.

Lemma floor_bounds (x : R) :
  IZR (JS.floor x) <= x < IZR (JS.floor x) + 1.
Proof.
  unfold JS.floor. destruct (base_Int_part x). lra.
Qed.

Lemma floor_nonneg (x : R) : 0 <= x -> (0 <= JS.floor x)%Z.
Proof.
  intros Hx. destruct (floor_bounds x) as [_ Hhi].
  assert (H : -1 < IZR (JS.floor x)) by lra.
  apply lt_IZR in H. lia.
Qed.

Lemma trunc_nonneg (x : R) : 0 <= x -> JS.trunc x = JS.floor x.
Proof.
  intros Hx. unfold JS.trunc. destruct (Rle_dec 0 x); [reflexivity | lra].
Qed.

(** A dividend written as [k] whole periods plus a rest. *)
Lemma quotient_split (y r : R) (k : Z) :
  0 < y -> 0 <= r < y ->
  IZR k <= (IZR k * y + r) / y < IZR k + 1.
Proof.
  intros Hy Hr.
  split; [apply div_above | apply div_below]; lra.
Qed.

Lemma floor_split (x y r : R) (k : Z) :
  0 < y -> 0 <= r < y -> x = IZR k * y + r -> JS.floor (x / y) = k.
Proof.
  intros Hy Hr ->. apply floor_spec, quotient_split; assumption.
Qed.

Lemma rem_split (x y r : R) (k : Z) :
  0 < y -> 0 <= r < y -> (0 <= k)%Z -> x = IZR k * y + r -> JS.rem x y = r.
Proof.
  intros Hy Hr Hk Hx. unfold JS.rem.
  assert (Hq : 0 <= x / y).
  { apply div_nonneg; [ | assumption]. subst x.
    apply IZR_le in Hk. nra. }
  rewrite (trunc_nonneg _ Hq), (floor_split x y r k Hy Hr Hx). lra.
Qed.

(** On a nonnegative dividend the remainder lies in [0, y). *)
Lemma rem_bounds (x y : R) : 0 <= x -> 0 < y -> 0 <= JS.rem x y < y.
Proof.
  intros Hx Hy. unfold JS.rem.
  assert (Hq : 0 <= x / y) by (apply div_nonneg; lra).
  rewrite (trunc_nonneg _ Hq).
  destruct (floor_bounds (x / y)) as [Hlo Hhi].
  assert (Hxy : x = x / y * y) by (field; lra).
  split; nra.
Qed.

(** In binary64 the millisecond steps of the scenarios and the saturated
    envelope are the exact values that the real-number model gives them. *)
Example binary64_scenario_constants :
  (PrimFloat.eqb (0.05 * 1000) 50
   && PrimFloat.eqb (0.1 * 1000) 100
   && PrimFloat.eqb (0.3 * 1000) 300
   && PrimFloat.eqb (1 * 1000) 1000
   && PrimFloat.eqb (0.3 + 0.7 * (1 * 1)) 1
   && PrimFloat.eqb (0.3 + 0.7 * (0 * 0)) 0.3)%float%bool = true.
Proof. reflexivity. Qed.

End Arithmetic.

(** ** Constant modes *)

Section Constant.

Variable config : Config.

(** One call, read off the position [r] inside the pulse period. *)
Lemma updateConstant_split (dt : R) (m : Mode) (this : Generator) (k : Z) (r : R) :
  (0 <= k)%Z -> 0 <= r < 300 ->
  pulseTime this + dt * 1000 = IZR k * 300 + r ->
  updateConstant config dt m this =
    (if Rlt_dec r 200 then both (selectedIntensity config m) else silent,
     set_pulseTime (pulseTime this + dt * 1000) this).
Proof.
  intros Hk Hr Hp. unfold updateConstant.
  cbn [pulseTime set_pulseTime].
  unfold CONSTANT_PULSE_BUZZ_MS, CONSTANT_PULSE_GAP_MS.
  replace (200 + 100) with 300 by lra.
  rewrite (rem_split _ 300 r k); [ | lra | assumption | assumption | assumption].
  destruct (Rlt_dec r 200); destruct m; reflexivity.
Qed.

(** One call on a clock that counts whole milliseconds. *)
Lemma updateConstant_ms (dt : R) (m : Mode) (this : Generator) (p d : Z) :
  pulseTime this = IZR p -> dt * 1000 = IZR d -> (0 <= p + d)%Z ->
  updateConstant config dt m this =
    (if ((p + d) mod 300 <? 200)%Z then both (selectedIntensity config m) else silent,
     set_pulseTime (IZR (p + d)) this).
Proof.
  intros Hp Hd Hpd.
  pose proof (Z.mod_pos_bound (p + d) 300 eq_refl) as [Hlo Hhi].
  rewrite (updateConstant_split dt m this ((p + d) / 300) (IZR ((p + d) mod 300))).
  - rewrite Hp, Hd, <- plus_IZR. f_equal.
    destruct (Z.ltb_spec ((p + d) mod 300) 200) as [Hlt | Hge];
      destruct (Rlt_dec (IZR ((p + d) mod 300)) 200) as [Hr | Hr];
      try reflexivity.
    + apply IZR_lt in Hlt. lra.
    + apply lt_IZR in Hr. lia.
  - apply Z.div_pos; lia.
  - apply IZR_le in Hlo. apply IZR_lt in Hhi. lra.
  - rewrite Hp, Hd, <- mult_IZR, <- !plus_IZR. f_equal.
    rewrite Z.mul_comm. apply Z.div_mod. lia.
Qed.

(** The same step inside [run]. *)
Lemma run_constant_ms (dt : R) (dts : list R) (this : Generator) (g : Random) (p d : Z) :
  mode config = constant_weak \/ mode config = constant_strong
    \/ mode config = constant_max ->
  pulseTime this = IZR p -> dt * 1000 = IZR d -> (0 <= p + d)%Z ->
  run config (dt :: dts) this g =
    (if ((p + d) mod 300 <? 200)%Z
     then both (selectedIntensity config (mode config)) else silent)
    :: run config dts (set_pulseTime (IZR (p + d)) this) g.
Proof.
  intros Hm Hp Hd Hpd. cbn [run]. unfold advance.
  destruct Hm as [Hm | [Hm | Hm]]; rewrite Hm;
    rewrite (updateConstant_ms dt _ this p d Hp Hd Hpd); reflexivity.
Qed.

(** Twenty calls of 50 ms in [constant_weak] mode after [start]. *)
Lemma constant_weak_twenty_ticks (this : Generator) (g : Random) :
  mode config = constant_weak ->
  run config (repeat 0.05 20) (start this) g =
    map (fun on : bool => if on then both (weakIntensity config) else silent)
      [true; true; true; false; false; true; true; true; true; false;
       false; true; true; true; true; false; false; true; true; true].
Proof.
  intros Hm.
  assert (Hd : 0.05 * 1000 = IZR 50) by lra.
  assert (Hall : mode config = constant_weak \/ mode config = constant_strong
                 \/ mode config = constant_max) by (left; exact Hm).
  cbn [repeat].
  do 20 (erewrite run_constant_ms;
         [ | exact Hall | reflexivity | exact Hd | lia ]).
  rewrite Hm. reflexivity.
Qed.

End Constant.

(** ** Cycle mode *)

Section Cycle.

Variable config : Config.

(** One call, read off the period [k] and the position [r] inside it. *)
Lemma updateCycle_split (dt : R) (this : Generator) (k : Z) (r : R) :
  (0 <= k)%Z -> 0 <= r < 300 ->
  pulseTime this + dt * 1000 = IZR k * 300 + r ->
  updateCycle config dt this =
    let this' := sequence k (set_pulseTime (pulseTime this + dt * 1000) this) in
    (if Rlt_dec r 200 then phaseOutput config (cyclePhaseIndex this') else silent,
     this').
Proof.
  intros Hk Hr Hp. unfold updateCycle, sequence.
  cbn [pulseTime set_pulseTime lastPulseCycleIndex cyclePhaseIndex].
  unfold CONSTANT_PULSE_BUZZ_MS, CONSTANT_PULSE_GAP_MS.
  replace (200 + 100) with 300 by lra.
  rewrite (floor_split _ 300 r k); [ | lra | assumption | assumption].
  destruct (k >? lastPulseCycleIndex this)%Z;
    cbn [pulseTime set_pulseTime set_lastPulseCycleIndex set_cyclePhaseIndex
         cyclePhaseIndex];
    (rewrite (rem_split _ 300 r k); [ | lra | assumption | assumption | assumption]);
    destruct (Rlt_dec r 200); try reflexivity.
  - destruct (Z.rem (cyclePhaseIndex this + 1) 4) as [ | [ [ | | ] | [ | | ] | ] | ];
      reflexivity.
  - destruct (cyclePhaseIndex this) as [ | [ [ | | ] | [ | | ] | ] | ];
      reflexivity.
Qed.

(** One call on a clock that counts whole milliseconds. *)
Lemma updateCycle_ms (dt : R) (this : Generator) (p d : Z) :
  pulseTime this = IZR p -> dt * 1000 = IZR d -> (0 <= p + d)%Z ->
  updateCycle config dt this =
    let this' := sequence ((p + d) / 300) (set_pulseTime (IZR (p + d)) this) in
    (if ((p + d) mod 300 <? 200)%Z
     then phaseOutput config (cyclePhaseIndex this') else silent,
     this').
Proof.
  intros Hp Hd Hpd.
  pose proof (Z.mod_pos_bound (p + d) 300 eq_refl) as [Hlo Hhi].
  rewrite (updateCycle_split dt this ((p + d) / 300) (IZR ((p + d) mod 300))).
  - rewrite Hp, Hd, <- plus_IZR. cbv zeta. f_equal.
    destruct (Z.ltb_spec ((p + d) mod 300) 200) as [Hlt | Hge];
      destruct (Rlt_dec (IZR ((p + d) mod 300)) 200) as [Hr | Hr];
      try reflexivity.
    + apply IZR_lt in Hlt. lra.
    + apply lt_IZR in Hr. lia.
  - apply Z.div_pos; lia.
  - apply IZR_le in Hlo. apply IZR_lt in Hhi. lra.
  - rewrite Hp, Hd, <- mult_IZR, <- !plus_IZR. f_equal.
    rewrite Z.mul_comm. apply Z.div_mod. lia.
Qed.

(** The same step inside [run]. *)
Lemma run_cycle_ms (dt : R) (dts : list R) (this : Generator) (g : Random) (p d : Z) :
  mode config = cycle ->
  pulseTime this = IZR p -> dt * 1000 = IZR d -> (0 <= p + d)%Z ->
  run config (dt :: dts) this g =
    let this' := sequence ((p + d) / 300) (set_pulseTime (IZR (p + d)) this) in
    (if ((p + d) mod 300 <? 200)%Z
     then phaseOutput config (cyclePhaseIndex this') else silent)
    :: run config dts this' g.
Proof.
  intros Hm Hp Hd Hpd. cbn [run]. unfold advance. rewrite Hm.
  rewrite (updateCycle_ms dt this p d Hp Hd Hpd). reflexivity.
Qed.

(** Eight pulse periods after [start], each sampled 100 ms after it began. *)
Lemma cycle_eight_periods (this : Generator) (g : Random) :
  mode config = cycle ->
  run config [0.1; 0.3; 0.3; 0.3; 0.3; 0.3; 0.3; 0.3] (start this) g =
    map (phaseOutput config) [1; 2; 3; 0; 1; 2; 3; 0]%Z.
Proof.
  intros Hm.
  assert (Hd1 : 0.1 * 1000 = IZR 100) by lra.
  assert (Hd3 : 0.3 * 1000 = IZR 300) by lra.
  erewrite run_cycle_ms; [ | exact Hm | reflexivity | exact Hd1 | lia ].
  cbv zeta.
  do 7 (erewrite run_cycle_ms; [ | exact Hm | reflexivity | exact Hd3 | lia ];
        cbv zeta).
  reflexivity.
Qed.

End Cycle.

(** ** Cycle mode: the sequence for every run of short calls *)

Section Rotation.

Variable config : Config.

Lemma period_split (t : R) :
  0 <= t ->
  exists (k : Z) (r : R),
    (0 <= k)%Z /\ 0 <= r < 300 /\ t = IZR k * 300 + r /\ JS.floor (t / 300) = k.
Proof.
  intros Ht.
  assert (Hq : 0 <= t / 300) by (apply div_nonneg; lra).
  destruct (floor_bounds (t / 300)) as [Hlo Hhi].
  assert (Ht300 : t = t / 300 * 300) by (field; lra).
  exists (JS.floor (t / 300)), (t - IZR (JS.floor (t / 300)) * 300).
  split; [apply floor_nonneg; exact Hq | ].
  split; [split; nra | ].
  split; [lra | reflexivity].
Qed.

Lemma start_in_step (this : Generator) : in_step (start this).
Proof.
  split; [cbn; lra | ]. split; [reflexivity | ].
  right. split; reflexivity.
Qed.

Lemma updateCycle_in_step (dt : R) (this : Generator) :
  in_step this -> 0 <= dt -> dt * 1000 < 300 ->
  fst (updateCycle config dt this) = rotated config (pulseTime this + dt * 1000)
  /\ pulseTime (snd (updateCycle config dt this)) = pulseTime this + dt * 1000
  /\ in_step (snd (updateCycle config dt this)).
Proof.
  intros (Hpt & Hcpi & Hlast) Hdt Hshort.
  assert (Ht : 0 <= pulseTime this + dt * 1000) by lra.
  destruct (period_split _ Ht) as (k' & r & Hk' & Hr & Hsplit & Hfloor).
  rewrite (updateCycle_split config dt this k' r Hk' Hr Hsplit). cbv zeta.
  cbn [fst snd]. unfold rotated.
  rewrite (rem_split _ 300 r k' ltac:(lra) Hr Hk' Hsplit), Hfloor.
  assert (Hidx : cyclePhaseIndex
                   (sequence k' (set_pulseTime (pulseTime this + dt * 1000) this))
                 = ((k' + 1) mod 4)%Z
                 /\ lastPulseCycleIndex
                      (sequence k' (set_pulseTime (pulseTime this + dt * 1000) this))
                    = k').
  { unfold sequence. fields.
    destruct Hlast as [Hlast | [Hlast Hzero]].
    - destruct (period_split _ Hpt) as (k & r0 & Hk & Hr0 & Hsplit0 & Hfloor0).
      rewrite Hfloor0 in Hlast.
      assert (Hlow : (k <= k')%Z).
      { apply Z.lt_succ_r. apply lt_IZR. rewrite succ_IZR. lra. }
      assert (Hhigh : (k' <= k + 1)%Z).
      { apply Z.lt_succ_r. apply lt_IZR. rewrite succ_IZR, plus_IZR. lra. }
      destruct (Z.gtb_spec k' (lastPulseCycleIndex this)) as [Hgt | Hle]; fields.
      + rewrite Hcpi, Hlast. split; [ | reflexivity].
        assert (k' = k + 1)%Z as -> by lia.
        rewrite Z.rem_mod_nonneg.
        * rewrite Z.add_mod_idemp_l by lia. reflexivity.
        * pose proof (Z.mod_pos_bound (k + 1) 4 eq_refl). lia.
        * lia.
      + rewrite Hcpi, Hlast. assert (k' = k)%Z as -> by lia. split; reflexivity.
    - assert (k' = 0)%Z as ->.
      { assert (Hlt : IZR k' < 1) by lra.
        apply lt_IZR in Hlt. lia. }
      rewrite Hcpi, Hlast. split; reflexivity. }
  destruct Hidx as [Hidx Hnew]. rewrite Hidx.
  split; [reflexivity | ].
  assert (Hclock : pulseTime
                     (sequence k' (set_pulseTime (pulseTime this + dt * 1000) this))
                   = pulseTime this + dt * 1000).
  { unfold sequence.
    destruct (k' >? lastPulseCycleIndex (set_pulseTime _ this))%Z; reflexivity. }
  split; [exact Hclock | ].
  split; [rewrite Hclock; exact Ht | ].
  split; [rewrite Hidx, Hnew; reflexivity | ].
  left. rewrite Hnew, Hclock. symmetry. exact Hfloor.
Qed.

(** In cycle mode, for calls that are each shorter than a pulse period, the
    output read at clock [t] is that of phase [(floor (t / 300) + 1) mod 4]:
    pulse period 0 plays phase 1, and phase 0 comes fourth. *)
Lemma cycle_run_rotated (dts : list R) :
  mode config = cycle ->
  Forall (fun dt : R => 0 <= dt /\ dt * 1000 < 300) dts ->
  forall (this : Generator) (g : Random),
    in_step this ->
    run config dts this g = map (rotated config) (clock (pulseTime this) dts).
Proof.
  intros Hm Hdts. induction Hdts as [ | dt dts [Hdt Hshort] _ IH];
    intros this g Hstep; cbn [run clock map].
  - reflexivity.
  - destruct (updateCycle_in_step dt this Hstep Hdt Hshort) as (Hout & Hclock & Hnext).
    unfold advance. rewrite Hm.
    destruct (updateCycle config dt this) as [o this']. cbn [fst snd] in *.
    rewrite Hout, <- Hclock. f_equal. apply IH. exact Hnext.
Qed.

(** After [start]: the clock starts at 0 and the sequencer one step ahead. *)
Lemma cycle_run_after_start (dts : list R) (this : Generator) (g : Random) :
  mode config = cycle ->
  Forall (fun dt : R => 0 <= dt /\ dt * 1000 < 300) dts ->
  run config dts (start this) g = map (rotated config) (clock 0 dts).
Proof.
  intros Hm Hdts.
  apply (cycle_run_rotated dts Hm Hdts (start this) g), start_in_step.
Qed.

End Rotation.

(** ** Stochastic mode *)

Section Stochastic.

Variable config : Config.

(** What a call returns: silence in a gap, and in a buzz the enveloped
    intensity on the chosen motor only. *)
Lemma updateStochastic_output (dt : R) (this : Generator) (g : Random) :
  let '(o, this', g') := updateStochastic config dt this g in
  currentTime this' = currentTime this + dt /\
  match stochasticPhase this' with
  | Gap => o = silent
  | Buzz =>
      exists n : nat,
        let target :=
          baseIntensity config (draws g n)
          * globalMultiplier config (currentTime this') in
        o = match stochasticNextMotor this' with
            | MotorLeft => {| left := target; right := 0 |}
            | MotorRight => {| left := 0; right := target |}
            end
  end.
Proof.
  unfold updateStochastic, Math_random.
  cbn [currentTime set_currentTime stochasticPhaseEndTime stochasticPhase].
  destruct (Rge_dec (currentTime this + dt) (stochasticPhaseEndTime this)) as [Hend | Hend].
  - destruct (stochasticPhase this); cbn.
    + destruct (Rlt_dec (draws g (S (cursor g))) 0.5); cbn;
        (split; [reflexivity | exists (S (S (cursor g))); cbv zeta; reflexivity]).
    + split; reflexivity.
  - cbn. destruct (stochasticPhase this) eqn:Hphase; cbn; rewrite ?Hphase.
    + split; reflexivity.
    + destruct (stochasticNextMotor this) eqn:Hmotor; cbn;
        rewrite ?Hphase, ?Hmotor;
        (split; [reflexivity | exists (cursor g); cbv zeta; reflexivity]).
Qed.

Lemma updateStochastic_one_sided (dt : R) (this : Generator) (g : Random) :
  one_sided (fst (fst (updateStochastic config dt this g))).
Proof.
  pose proof (updateStochastic_output dt this g) as H.
  destruct (updateStochastic config dt this g) as [[o this'] g'].
  destruct H as [_ H]. cbn [fst].
  destruct (stochasticPhase this').
  - subst o. left. reflexivity.
  - destruct H as [n H]. cbv zeta in H. subst o.
    destruct (stochasticNextMotor this'); [right | left]; reflexivity.
Qed.

(** The envelope on a clock that has not run backwards. *)
Lemma globalMultiplier_bounds (t : R) :
  0 < peakTime config -> 0 <= t ->
  0.3 <= globalMultiplier config t <= 1.
Proof.
  intros Hpeak Ht. unfold globalMultiplier, JS.min. cbv zeta.
  assert (Hq : 0 <= t / peakTime config) by (apply div_nonneg; assumption).
  pose proof (Rmin_l 1 (t / peakTime config)) as Hl.
  assert (Hm : 0 <= Rmin 1 (t / peakTime config)) by (apply Rmin_glb; lra).
  nra.
Qed.

(** The base intensity lies between the weak and the strong setting. *)
Lemma baseIntensity_range (g : Random) (n : nat) :
  unit_draws g ->
  weakIntensity config <= strongIntensity config ->
  weakIntensity config <= baseIntensity config (draws g n) <= strongIntensity config.
Proof.
  intros Hdraws Hle. destruct (Hdraws n) as [Hlo Hhi]. unfold baseIntensity.
  split; nra.
Qed.

Lemma globalMultiplier_saturated (t : R) :
  0 < peakTime config -> peakTime config <= t ->
  globalMultiplier config t = 1.
Proof.
  intros Hpeak Ht. unfold globalMultiplier, JS.min. cbv zeta.
  assert (Hq : 1 <= t / peakTime config) by (apply div_above; lra).
  rewrite (Rmin_left _ _ Hq). lra.
Qed.

End Stochastic.

(** ** Breathing-pulse mode *)

Section Breathing.

Variable config : Config.

Lemma periodOrOne_positive (period : R) : 0 < periodOrOne period.
Proof.
  unfold periodOrOne. destruct (Rgt_dec period 0); lra.
Qed.

Lemma periodOrOne_cases (period : R) :
  (0 < period /\ periodOrOne period = period)
  \/ (period <= 0 /\ periodOrOne period = 1).
Proof.
  unfold periodOrOne. destruct (Rgt_dec period 0); [left | right]; split; lra.
Qed.

(** The call in closed form. *)
Lemma updateBreathingPulse_closed (dt : R) (this : Generator) :
  updateBreathingPulse config dt this =
    let t := breathingTime this + dt in
    let baseFreq := 1 / periodOrOne (breathingPulsePeriod config) in
    let beatFreq := 1 / periodOrOne (breathingPulseSyncPeriod config) in
    ({| left := tone config baseFreq t;
        right := tone config (baseFreq + beatFreq) t |},
     set_breathingTime t this).
Proof. reflexivity. Qed.

Lemma tone_range (freq t : R) :
  breathingPulseMinIntensity config <= maxIntensity config ->
  breathingPulseMinIntensity config <= tone config freq t <= maxIntensity config.
Proof.
  intros Hle. unfold tone, center, amplitude.
  pose proof (SIN_bound (2 * PI * freq * t)) as [Hlo Hhi].
  split; nra.
Qed.

Lemma tone_at_zero (freq : R) :
  tone config freq 0 = center config + amplitude config * sin 0.
Proof.
  unfold tone. rewrite Rmult_0_r. reflexivity.
Qed.

End Breathing.

(** ** Which fields a call leaves alone *)

Section Frames.

Variable config : Config.

Lemma updateStochastic_frame (dt : R) (this : Generator) (g : Random) :
  let this' := snd (fst (updateStochastic config dt this g)) in
  keeps_breathing this this' /\ keeps_pulse this this' /\ keeps_sequencer this this'.
Proof.
  unfold updateStochastic, Math_random, keeps_breathing, keeps_pulse, keeps_sequencer.
  cbn [currentTime set_currentTime stochasticPhaseEndTime stochasticPhase].
  destruct (Rge_dec (currentTime this + dt) (stochasticPhaseEndTime this));
    destruct (stochasticPhase this) eqn:Hphase; cbn; rewrite ?Hphase;
    try (destruct (Rlt_dec (draws g (S (cursor g))) 0.5); cbn);
    try (destruct (stochasticNextMotor this); cbn);
    repeat split.
Qed.

Lemma updateBreathingPulse_frame (dt : R) (this : Generator) :
  let this' := snd (updateBreathingPulse config dt this) in
  keeps_stochastic this this' /\ keeps_pulse this this' /\ keeps_sequencer this this'.
Proof. cbv zeta. repeat split. Qed.

Lemma updateConstant_frame (dt : R) (m : Mode) (this : Generator) :
  let this' := snd (updateConstant config dt m this) in
  keeps_stochastic this this' /\ keeps_breathing this this'
  /\ keeps_sequencer this this'.
Proof.
  unfold updateConstant. cbv zeta.
  match goal with |- context [Rlt_dec ?a ?b] => destruct (Rlt_dec a b) end;
    repeat split.
Qed.

Lemma updateCycle_state (dt : R) (this : Generator) :
  snd (updateCycle config dt this) =
    let t := pulseTime this + dt * 1000 in
    sequence (JS.floor (t / (CONSTANT_PULSE_BUZZ_MS + CONSTANT_PULSE_GAP_MS)))
      (set_pulseTime t this).
Proof.
  unfold updateCycle, sequence. cbv zeta.
  cbn [pulseTime set_pulseTime lastPulseCycleIndex cyclePhaseIndex].
  match goal with |- context [Rlt_dec ?a ?b] => destruct (Rlt_dec a b) end;
    [ | reflexivity].
  match goal with
  | |- context [match cyclePhaseIndex ?s with _ => _ end] =>
      destruct (cyclePhaseIndex s) as [ | [ [ | | ] | [ | | ] | ] | ]
  end; reflexivity.
Qed.

Lemma updateCycle_frame (dt : R) (this : Generator) :
  let this' := snd (updateCycle config dt this) in
  keeps_stochastic this this' /\ keeps_breathing this this'.
Proof.
  cbv zeta. rewrite updateCycle_state. unfold sequence. cbv zeta.
  match goal with |- context [(?a >? ?b)%Z] => destruct (a >? b)%Z end;
    repeat split.
Qed.

(** The session clock moves in stochastic mode only. *)
Lemma advance_currentTime (dt : R) (this : Generator) (g : Random) :
  currentTime (snd (fst (advance config dt this g))) =
    match mode config with
    | stochastic => currentTime this + dt
    | _ => currentTime this
    end.
Proof.
  unfold advance. destruct (mode config) eqn:Hm.
  - pose proof (updateStochastic_output config dt this g) as H.
    destruct (updateStochastic config dt this g) as [[o this'] g'].
    apply H.
  - reflexivity.
  - pose proof (updateCycle_frame dt this) as [[H _] _].
    destruct (updateCycle config dt this). exact H.
  - pose proof (updateConstant_frame dt constant_weak this) as [[H _] _].
    destruct (updateConstant config dt constant_weak this). exact H.
  - pose proof (updateConstant_frame dt constant_strong this) as [[H _] _].
    destruct (updateConstant config dt constant_strong this). exact H.
  - pose proof (updateConstant_frame dt constant_max this) as [[H _] _].
    destruct (updateConstant config dt constant_max this). exact H.
  - reflexivity.
Qed.




Lemma run_one_sided (dts : list R) :
  mode config = stochastic ->
  forall (this : Generator) (g : Random),
    Forall one_sided (run config dts this g).
Proof.
  intros Hm. induction dts as [ | dt dts IH]; intros this g; cbn [run].
  - constructor.
  - pose proof (updateStochastic_one_sided config dt this g) as Hone.
    unfold advance. rewrite Hm.
    destruct (updateStochastic config dt this g) as [[o this'] g'].
    constructor; [exact Hone | apply IH].
Qed.

End Frames.

(** ** The first stochastic call after [start] *)

Section FirstBuzz.

Variable config : Config.

(** A call that ends a gap: three draws, in the order of the source. *)
Lemma updateStochastic_gap_to_buzz (dt : R) (this : Generator) (g : Random) :
  stochasticPhase this = Gap ->
  stochasticPhaseEndTime this <= currentTime this + dt ->
  updateStochastic config dt this g =
    let t := currentTime this + dt in
    let buzzDuration :=
      draws g (cursor g) * (buzzMax config - buzzMin config) + buzzMin config in
    let motor :=
      if Rlt_dec (draws g (S (cursor g))) 0.5 then MotorLeft else MotorRight in
    let target :=
      baseIntensity config (draws g (S (S (cursor g)))) * globalMultiplier config t in
    (match motor with
     | MotorLeft => {| left := target; right := 0 |}
     | MotorRight => {| left := 0; right := target |}
     end,
     set_stochasticNextMotor motor
       (set_stochasticPhaseEndTime (t + buzzDuration / 1000)
          (set_stochasticPhase Buzz (set_currentTime t this))),
     {| draws := draws g; cursor := S (S (S (cursor g))) |}).
Proof.
  intros Hphase Hend. unfold updateStochastic, Math_random.
  cbn [currentTime set_currentTime stochasticPhaseEndTime stochasticPhase].
  destruct (Rge_dec (currentTime this + dt) (stochasticPhaseEndTime this)) as [_ | Hno];
    [ | lra].
  rewrite Hphase. cbn.
  destruct (Rlt_dec (draws g (S (cursor g))) 0.5); reflexivity.
Qed.

Lemma globalMultiplier_at_zero :
  0 < peakTime config -> globalMultiplier config 0 = 0.3.
Proof.
  intros _. unfold globalMultiplier, JS.min. cbv zeta.
  rewrite Rdiv_0_l, Rmin_right by lra. lra.
Qed.

End FirstBuzz.

(** ** A restarted generator and a new one *)

Section Restart.

Variable config : Config.

Lemma start_fields (this : Generator) :
  start this = set_stochasticNextMotor (stochasticNextMotor this) patternGenerator.
Proof. reflexivity. Qed.

Lemma start_agree (this : Generator) : agree patternGenerator (start this).
Proof.
  right. split; [reflexivity | ].
  exists (stochasticNextMotor this). apply start_fields.
Qed.

(** The motor choice plays no part outside stochastic mode. *)
Lemma updateBreathingPulse_motor (dt : R) (motor : Motor) (this : Generator) :
  updateBreathingPulse config dt (set_stochasticNextMotor motor this) =
    (fst (updateBreathingPulse config dt this),
     set_stochasticNextMotor motor (snd (updateBreathingPulse config dt this))).
Proof. reflexivity. Qed.

Lemma updateConstant_motor (dt : R) (m : Mode) (motor : Motor) (this : Generator) :
  updateConstant config dt m (set_stochasticNextMotor motor this) =
    (fst (updateConstant config dt m this),
     set_stochasticNextMotor motor (snd (updateConstant config dt m this))).
Proof.
  unfold updateConstant. cbv zeta. fields.
  match goal with |- context [Rlt_dec ?a ?b] => destruct (Rlt_dec a b) end;
    reflexivity.
Qed.

Lemma updateCycle_motor (dt : R) (motor : Motor) (this : Generator) :
  updateCycle config dt (set_stochasticNextMotor motor this) =
    (fst (updateCycle config dt this),
     set_stochasticNextMotor motor (snd (updateCycle config dt this))).
Proof.
  unfold updateCycle. cbv zeta. fields.
  match goal with |- context [(?a >? ?b)%Z] => destruct (a >? b)%Z end; fields;
    (match goal with |- context [Rlt_dec ?a ?b] => destruct (Rlt_dec a b) end;
     [ | reflexivity]).
  - destruct (Z.rem (cyclePhaseIndex this + 1) 4) as [ | [ [ | | ] | [ | | ] | ] | ];
      reflexivity.
  - destruct (cyclePhaseIndex this) as [ | [ [ | | ] | [ | | ] | ] | ];
      reflexivity.
Qed.

Lemma agree_motor (motor : Motor) (this other : Generator) :
  stochasticPhase this = Gap ->
  other = set_stochasticNextMotor motor this ->
  agree this other.
Proof.
  intros Hphase Hother. right. split; [exact Hphase | exists motor; exact Hother].
Qed.

Lemma advance_agree (dt : R) (this other : Generator) (g : Random) :
  agree this other ->
  fst (fst (advance config dt this g)) = fst (fst (advance config dt other g))
  /\ snd (advance config dt this g) = snd (advance config dt other g)
  /\ agree (snd (fst (advance config dt this g)))
           (snd (fst (advance config dt other g))).
Proof.
  intros [-> | [Hphase [motor ->]]].
  - repeat split. left. reflexivity.
  - unfold advance. destruct (mode config).
    + unfold updateStochastic, Math_random. fields.
      destruct (Rge_dec (currentTime this + dt) (stochasticPhaseEndTime this)).
      * rewrite Hphase. cbn.
        destruct (Rlt_dec (draws g (S (cursor g))) 0.5); cbn;
          repeat split; left; reflexivity.
      * cbn. rewrite Hphase. cbn. repeat split.
        apply (agree_motor motor); [exact Hphase | reflexivity].
    + cbn. repeat split. apply (agree_motor motor); [exact Hphase | reflexivity].
    + rewrite updateCycle_motor.
      pose proof (updateCycle_frame config dt this) as [(_ & Hkeep & _) _].
      destruct (updateCycle config dt this) as [o this']. cbn [fst snd] in *.
      repeat split. apply (agree_motor motor); [congruence | reflexivity].
    + rewrite updateConstant_motor.
      pose proof (updateConstant_frame config dt constant_weak this)
        as [(_ & Hkeep & _) _].
      destruct (updateConstant config dt constant_weak this) as [o this'].
      cbn [fst snd] in *. repeat split. apply (agree_motor motor); [congruence | reflexivity].
    + rewrite updateConstant_motor.
      pose proof (updateConstant_frame config dt constant_strong this)
        as [(_ & Hkeep & _) _].
      destruct (updateConstant config dt constant_strong this) as [o this'].
      cbn [fst snd] in *. repeat split. apply (agree_motor motor); [congruence | reflexivity].
    + rewrite updateConstant_motor.
      pose proof (updateConstant_frame config dt constant_max this)
        as [(_ & Hkeep & _) _].
      destruct (updateConstant config dt constant_max this) as [o this'].
      cbn [fst snd] in *. repeat split. apply (agree_motor motor); [congruence | reflexivity].
    + cbn. repeat split. apply (agree_motor motor); [exact Hphase | reflexivity].
Qed.

Lemma run_agree (dts : list R) :
  forall (this other : Generator) (g : Random),
    agree this other -> run config dts this g = run config dts other g.
Proof.
  induction dts as [ | dt dts IH]; intros this other g Hagree; cbn [run].
  - reflexivity.
  - destruct (advance_agree dt this other g Hagree) as (Ho & Hg & Hnext).
    destruct (advance config dt this g) as [[o1 this1] g1].
    destruct (advance config dt other g) as [[o2 this2] g2].
    cbn [fst snd] in Ho, Hg, Hnext. subst o2 g2.
    f_equal. apply IH. exact Hnext.
Qed.

End Restart.

(** * The statements of the specification *)

(** ** Cycle mode *)

(** C1. After [start], sampling each of eight consecutive 300 ms pulse periods
    100 ms into its buzz window, [updateCycle] emits (max, max), (max, 0),
    (0, max), (strong, strong) and then the same four again: the first call
    already moves the sequencer from phase 0 to phase 1, so the period that
    should carry (strong, strong) carries (max, max) and the whole sequence
    is rotated by one. *)
Theorem cycle_sequence_after_start (config : Config) (this : Generator) (g : Random) :
  mode config = cycle ->
  run config [0.1; 0.3; 0.3; 0.3; 0.3; 0.3; 0.3; 0.3] (start this) g =
    [ {| left := maxIntensity config; right := maxIntensity config |};
      {| left := maxIntensity config; right := 0 |};
      {| left := 0; right := maxIntensity config |};
      {| left := strongIntensity config; right := strongIntensity config |};
      {| left := maxIntensity config; right := maxIntensity config |};
      {| left := maxIntensity config; right := 0 |};
      {| left := 0; right := maxIntensity config |};
      {| left := strongIntensity config; right := strongIntensity config |} ].
Proof.
  intros Hm. rewrite (cycle_eight_periods config this g Hm). reflexivity.
Qed.

Lemma cycle_sequence_after_start_witness :
  mode (with_mode cycle scenario) = cycle
  /\ run (with_mode cycle scenario) [0.1; 0.3; 0.3; 0.3; 0.3; 0.3; 0.3; 0.3]
       (start patternGenerator) low_draws =
     [ {| left := 255; right := 255 |}; {| left := 255; right := 0 |};
       {| left := 0; right := 255 |}; {| left := 150; right := 150 |};
       {| left := 255; right := 255 |}; {| left := 255; right := 0 |};
       {| left := 0; right := 255 |}; {| left := 150; right := 150 |} ].
Proof.
  split; [reflexivity | ].
  apply (cycle_sequence_after_start (with_mode cycle scenario)). reflexivity.
Defined.

(** C8. One call of [updateCycle] moves [cyclePhaseIndex] by at most one step
    modulo 4, whatever the [dt]: the index is either kept or advanced once,
    and [lastPulseCycleIndex] is either kept or set straight to the period
    the clock is now in, so periods that a long [dt] jumps over are not
    replayed. *)
Theorem cycle_index_single_step (config : Config) (dt : R) (this : Generator) :
  (cyclePhaseIndex (snd (updateCycle config dt this)) = cyclePhaseIndex this
   /\ lastPulseCycleIndex (snd (updateCycle config dt this)) = lastPulseCycleIndex this)
  \/ (cyclePhaseIndex (snd (updateCycle config dt this)) =
        Z.rem (cyclePhaseIndex this + 1) 4
      /\ lastPulseCycleIndex (snd (updateCycle config dt this)) =
           JS.floor ((pulseTime this + dt * 1000) / 300)).
Proof.
  rewrite updateCycle_state. unfold sequence. cbv zeta. fields.
  unfold CONSTANT_PULSE_BUZZ_MS, CONSTANT_PULSE_GAP_MS.
  replace (200 + 100) with 300 by lra.
  destruct (JS.floor ((pulseTime this + dt * 1000) / 300) >? lastPulseCycleIndex this)%Z;
    [right | left]; split; reflexivity.
Qed.

(** A single call of one second after [start] crosses three period
    boundaries and advances the phase once. *)
Example cycle_long_tick (config : Config) (this : Generator) :
  cyclePhaseIndex (snd (updateCycle config 1 (start this))) = 1%Z
  /\ lastPulseCycleIndex (snd (updateCycle config 1 (start this))) = 3%Z.
Proof.
  rewrite (updateCycle_ms config 1 (start this) 0 1000); [ | reflexivity | lra | lia].
  split; reflexivity.
Qed.

(** ** The first call after [start] *)

(** C2, as amended. With [peakTime] positive, [start] followed by one call with
    [dt = 0] lands in the buzz window of the constant and cycle modes and ends
    the initial gap of stochastic mode at once, so the output is not (0, 0):
    a constant mode returns its selected intensity on both channels; cycle
    mode returns one intensity, [strongIntensity] or [maxIntensity], on both
    channels; stochastic mode returns 0.3 times the jittered base intensity
    on the motor chosen by the second draw and 0 on the other; breathing mode
    returns [center + amplitude * sin 0] on both channels; an unknown mode
    returns (0, 0). *)
Theorem first_call_at_zero (config : Config) (this : Generator) (g : Random) :
  0 < peakTime config ->
  match mode config with
  | stochastic =>
      fst (fst (advance config 0 (start this) g)) =
        if Rlt_dec (draws g (S (cursor g))) 0.5
        then {| left := baseIntensity config (draws g (S (S (cursor g)))) * 0.3;
                right := 0 |}
        else {| left := 0;
                right := baseIntensity config (draws g (S (S (cursor g)))) * 0.3 |}
  | breathing_pulse =>
      fst (fst (advance config 0 (start this) g)) =
        both (center config + amplitude config * sin 0)
  | cycle =>
      fst (fst (advance config 0 (start this) g)) = both (strongIntensity config)
      \/ fst (fst (advance config 0 (start this) g)) = both (maxIntensity config)
  | constant_weak =>
      fst (fst (advance config 0 (start this) g)) = both (weakIntensity config)
  | constant_strong =>
      fst (fst (advance config 0 (start this) g)) = both (strongIntensity config)
  | constant_max =>
      fst (fst (advance config 0 (start this) g)) = both (maxIntensity config)
  | other_mode =>
      fst (fst (advance config 0 (start this) g)) = silent
  end.
Proof.
  intros Hpeak. unfold advance.
  assert (Hzero : 0 * 1000 = IZR 0) by lra.
  destruct (mode config).
  - rewrite updateStochastic_gap_to_buzz; [ | reflexivity | cbn; lra].
    cbv zeta. cbn [fst]. fields.
    replace (currentTime (start this) + 0) with 0 by (cbn; lra).
    rewrite (globalMultiplier_at_zero config Hpeak).
    destruct (Rlt_dec (draws g (S (cursor g))) 0.5); reflexivity.
  - rewrite updateBreathingPulse_closed. cbv zeta. cbn [fst].
    replace (breathingTime (start this) + 0) with 0 by (cbn; lra).
    rewrite !tone_at_zero. reflexivity.
  - rewrite (updateCycle_ms config 0 (start this) 0 0 eq_refl Hzero ltac:(lia)).
    right. reflexivity.
  - rewrite (updateConstant_ms config 0 _ (start this) 0 0 eq_refl Hzero ltac:(lia)).
    reflexivity.
  - rewrite (updateConstant_ms config 0 _ (start this) 0 0 eq_refl Hzero ltac:(lia)).
    reflexivity.
  - rewrite (updateConstant_ms config 0 _ (start this) 0 0 eq_refl Hzero ltac:(lia)).
    reflexivity.
  - reflexivity.
Qed.

Lemma first_call_at_zero_witness :
  0 < peakTime (with_mode stochastic scenario)
  /\ fst (fst (advance (with_mode stochastic scenario) 0 (start patternGenerator)
                 high_draws)) =
     if Rlt_dec (draws high_draws 1) 0.5
     then {| left := baseIntensity (with_mode stochastic scenario)
                       (draws high_draws 2) * 0.3;
             right := 0 |}
     else {| left := 0;
             right := baseIntensity (with_mode stochastic scenario)
                        (draws high_draws 2) * 0.3 |}.
Proof.
  assert (Hpeak : 0 < peakTime (with_mode stochastic scenario)) by (cbn; lra).
  split; [exact Hpeak | ].
  exact (first_call_at_zero (with_mode stochastic scenario) patternGenerator
           high_draws Hpeak).
Defined.

(** C2 as stated fails: in [constant_weak] mode with [weakIntensity = 50] the
    first call with [dt = 0] returns (50, 50), not (0, 0). *)
Lemma first_call_constant_weak_is_loud :
  fst (fst (advance scenario 0 (start patternGenerator) low_draws)) = both 50
  /\ fst (fst (advance scenario 0 (start patternGenerator) low_draws)) <> silent.
Proof.
  assert (Hzero : 0 * 1000 = IZR 0) by lra.
  assert (Hout : fst (fst (advance scenario 0 (start patternGenerator) low_draws))
                 = both 50).
  { unfold advance. cbn [mode scenario].
    rewrite (updateConstant_ms scenario 0 _ (start patternGenerator) 0 0
               eq_refl Hzero ltac:(lia)).
    reflexivity. }
  split; [exact Hout | ].
  rewrite Hout. intros Heq. apply (f_equal left) in Heq. cbn in Heq. lra.
Qed.

(** ** The constant-weak scenario *)

(** C3, as amended. In [constant_weak] mode with [weakIntensity = 50], twenty
    calls with [dt = 0.05] after [start] return, on both channels,
    50,50,50,0,0 and then 50,50,50,50,0,0 repeated: the clock reads 50 ms at
    the first call, so the first buzz window holds three calls, every later
    one four, and every 100 ms gap two. *)
Theorem constant_weak_scenario (config : Config) (this : Generator) (g : Random) :
  mode config = constant_weak ->
  weakIntensity config = 50 ->
  run config (repeat 0.05 20) (start this) g =
    map both [50; 50; 50; 0; 0; 50; 50; 50; 50; 0;
              0; 50; 50; 50; 50; 0; 0; 50; 50; 50].
Proof.
  intros Hm Hweak. rewrite (constant_weak_twenty_ticks config this g Hm), Hweak.
  reflexivity.
Qed.

Lemma constant_weak_scenario_witness :
  mode scenario = constant_weak
  /\ weakIntensity scenario = 50
  /\ run scenario (repeat 0.05 20) (start patternGenerator) low_draws =
       map both [50; 50; 50; 0; 0; 50; 50; 50; 50; 0;
                 0; 50; 50; 50; 50; 0; 0; 50; 50; 50].
Proof.
  split; [reflexivity | split; [reflexivity | ]].
  apply (constant_weak_scenario scenario); reflexivity.
Defined.

(** C3 as stated fails: the twenty outputs are not four 50s and one 0, four
    times over; the fourth output is already 0. *)
Lemma constant_weak_scenario_not_four_and_one :
  run scenario (repeat 0.05 20) (start patternGenerator) low_draws <>
    map both [50; 50; 50; 50; 0; 50; 50; 50; 50; 0;
              50; 50; 50; 50; 0; 50; 50; 50; 50; 0].
Proof.
  rewrite (constant_weak_twenty_ticks scenario patternGenerator low_draws eq_refl).
  intros Heq. apply (f_equal (fun l => left (nth 3 l silent))) in Heq.
  cbn in Heq. lra.
Qed.

(** ** [start] *)

(** C4, as amended. [start] returns every field except [stochasticNextMotor]
    to its initial value and leaves that one as it was; the stale motor is
    never read, because the phase is back to [Gap] and the motor is drawn
    afresh when the gap ends, so from then on a restarted generator returns
    the outputs of a newly built one, in every mode and for every sequence
    of calls. *)
Theorem start_resets_all_but_motor (this : Generator) :
  start this =
    {| currentTime := 0;
       stochasticPhase := Gap;
       stochasticPhaseEndTime := 0;
       stochasticNextMotor := stochasticNextMotor this;
       pulseTime := 0;
       cyclePhaseIndex := 0;
       lastPulseCycleIndex := -1;
       breathingTime := 0 |}
  /\ forall (config : Config) (dts : list R) (g : Random),
       run config dts (start this) g = run config dts patternGenerator g.
Proof.
  split; [reflexivity | ].
  intros config dts g. symmetry. apply run_agree, start_agree.
Qed.

(** C4 as stated fails: after one stochastic call whose motor draw is 0.75 the
    motor is ['right'], and [start] leaves it there, while a new generator
    has ['left']. *)
Lemma start_keeps_stale_motor :
  start (fst (run_state (with_mode stochastic scenario) [0] patternGenerator
                high_draws)) <> patternGenerator.
Proof.
  cbn [run_state]. unfold advance. cbn [mode with_mode].
  rewrite updateStochastic_gap_to_buzz; [ | reflexivity | cbn; lra].
  cbv zeta. cbn [fst].
  destruct (Rlt_dec (draws high_draws (S (cursor high_draws))) 0.5) as [Hlow | _].
  - cbn in Hlow. lra.
  - intros Heq. apply (f_equal stochasticNextMotor) in Heq. discriminate Heq.
Qed.

(** ** Breathing-pulse mode *)

(** C5. [updateBreathingPulse] divides 1 by the period itself when the period
    is positive and by 1 when it is zero or negative, for the base period and
    for the sync period alike; both divisors are positive for every
    configuration, and the call returns its two tones and the advanced clock
    for every input. *)
Theorem breathing_period_guard (config : Config) (dt : R) (this : Generator) :
  exists basePeriod syncPeriod : R,
    0 < basePeriod /\ 0 < syncPeriod
    /\ ((0 < breathingPulsePeriod config /\ basePeriod = breathingPulsePeriod config)
        \/ (breathingPulsePeriod config <= 0 /\ basePeriod = 1))
    /\ ((0 < breathingPulseSyncPeriod config
         /\ syncPeriod = breathingPulseSyncPeriod config)
        \/ (breathingPulseSyncPeriod config <= 0 /\ syncPeriod = 1))
    /\ updateBreathingPulse config dt this =
         ({| left := tone config (1 / basePeriod) (breathingTime this + dt);
             right := tone config (1 / basePeriod + 1 / syncPeriod)
                        (breathingTime this + dt) |},
          set_breathingTime (breathingTime this + dt) this).
Proof.
  exists (periodOrOne (breathingPulsePeriod config)),
         (periodOrOne (breathingPulseSyncPeriod config)).
  repeat split; try apply periodOrOne_positive.
  - apply periodOrOne_cases.
  - apply periodOrOne_cases.
Qed.

(** C9, as amended. When [breathingPulseMinIntensity] and [maxIntensity] are
    whole numbers with [0 <= breathingPulseMinIntensity <= maxIntensity <=
    255], the range of the sliders, both intensities returned by
    [updateBreathingPulse] lie between [breathingPulseMinIntensity] and
    [maxIntensity], from every state and for every [dt], and the clamp of
    [gameLoop] leaves them as they are. *)
Theorem breathing_output_in_slider_range (config : Config) (dt : R)
    (this : Generator) (lowest highest : Z) :
  breathingPulseMinIntensity config = IZR lowest ->
  maxIntensity config = IZR highest ->
  (0 <= lowest)%Z -> (lowest <= highest)%Z -> (highest <= 255)%Z ->
  (breathingPulseMinIntensity config
     <= left (fst (updateBreathingPulse config dt this)) <= maxIntensity config
   /\ breathingPulseMinIntensity config
        <= right (fst (updateBreathingPulse config dt this)) <= maxIntensity config)
  /\ clamp (fst (updateBreathingPulse config dt this))
     = fst (updateBreathingPulse config dt this).
Proof.
  intros Hlow Hhigh Hzero Horder Htop.
  assert (Hmin : 0 <= breathingPulseMinIntensity config)
    by (rewrite Hlow; apply IZR_le; exact Hzero).
  assert (Hle : breathingPulseMinIntensity config <= maxIntensity config)
    by (rewrite Hlow, Hhigh; apply IZR_le; exact Horder).
  assert (Hmax : maxIntensity config <= 255)
    by (rewrite Hhigh; apply IZR_le; exact Htop).
  rewrite updateBreathingPulse_closed. cbv zeta. cbn [fst left right].
  unfold clamp, JS.max, JS.min. cbn [left right].
  match goal with
  | |- context [tone config ?f ?t] =>
      pose proof (tone_range config f t Hle) as Hl;
      generalize dependent (tone config f t); intros l Hl
  end.
  match goal with
  | |- context [tone config ?f ?t] =>
      pose proof (tone_range config f t Hle) as Hr;
      generalize dependent (tone config f t); intros r Hr
  end.
  split; [split; assumption | ].
  rewrite (Rmin_right 255 l), (Rmin_right 255 r) by lra.
  rewrite (Rmax_right 0 l), (Rmax_right 0 r) by lra.
  reflexivity.
Qed.

Lemma breathing_output_in_slider_range_witness :
  breathingPulseMinIntensity scenario = IZR 0
  /\ maxIntensity scenario = IZR 255
  /\ (0 <= 0)%Z /\ (0 <= 255)%Z /\ (255 <= 255)%Z
  /\ (breathingPulseMinIntensity scenario
        <= left (fst (updateBreathingPulse scenario 0.25 patternGenerator))
        <= maxIntensity scenario
      /\ breathingPulseMinIntensity scenario
           <= right (fst (updateBreathingPulse scenario 0.25 patternGenerator))
           <= maxIntensity scenario)
  /\ clamp (fst (updateBreathingPulse scenario 0.25 patternGenerator))
     = fst (updateBreathingPulse scenario 0.25 patternGenerator).
Proof.
  assert (Hlow : breathingPulseMinIntensity scenario = IZR 0) by reflexivity.
  assert (Hhigh : maxIntensity scenario = IZR 255) by reflexivity.
  assert (Hzero : (0 <= 0)%Z) by lia.
  assert (Horder : (0 <= 255)%Z) by lia.
  assert (Htop : (255 <= 255)%Z) by lia.
  split; [exact Hlow | split; [exact Hhigh | split; [exact Hzero | ]]].
  split; [exact Horder | split; [exact Htop | ]].
  exact (breathing_output_in_slider_range scenario 0.25 patternGenerator 0 255
           Hlow Hhigh Hzero Horder Htop).
Defined.

(** C9 as stated fails: [breathingPulseMinIntensity <= maxIntensity] alone
    does not spare the clamp.  With [maxIntensity = 300], a minimum of 0 and
    a period of 1 s, the left channel a quarter of a second after [start] is
    300, which the clamp of [gameLoop] turns into 255. *)
Lemma breathing_output_clamped_above_255 :
  breathingPulseMinIntensity overdriven <= maxIntensity overdriven
  /\ left (fst (updateBreathingPulse overdriven 0.25 patternGenerator)) = 300
  /\ clamp (fst (updateBreathingPulse overdriven 0.25 patternGenerator))
     <> fst (updateBreathingPulse overdriven 0.25 patternGenerator).
Proof.
  assert (Hleft : left (fst (updateBreathingPulse overdriven 0.25 patternGenerator))
                  = 300).
  { rewrite updateBreathingPulse_closed. cbv zeta. cbn [fst left].
    unfold tone, center, amplitude, periodOrOne.
    cbn [overdriven breathingPulsePeriod maxIntensity breathingPulseMinIntensity
         patternGenerator breathingTime].
    destruct (Rgt_dec 1 0) as [_ | Hno]; [ | lra].
    replace (2 * PI * (1 / 1) * (0 + 0.25)) with (PI / 2) by lra.
    rewrite sin_PI2. lra. }
  split; [cbn; lra | split; [exact Hleft | ]].
  intros Heq. apply (f_equal left) in Heq. rewrite Hleft in Heq.
  unfold clamp, JS.max, JS.min in Heq. cbn [left] in Heq. rewrite Hleft in Heq.
  rewrite (Rmin_left 255 300), (Rmax_right 0 255) in Heq by lra. lra.
Qed.

(** ** Stochastic mode *)

(** C6. In stochastic mode every call returns 0 on at least one of the two
    channels, for every configuration, every starting state, every source of
    draws and every sequence of [dt]s. *)
Theorem stochastic_one_sided (config : Config) (dts : list R)
    (this : Generator) (g : Random) :
  mode config = stochastic ->
  Forall (fun o : Output => left o = 0 \/ right o = 0) (run config dts this g).
Proof.
  intros Hm. apply (run_one_sided config dts Hm).
Qed.

Lemma stochastic_one_sided_witness :
  mode (with_mode stochastic scenario) = stochastic
  /\ Forall (fun o : Output => left o = 0 \/ right o = 0)
       (run (with_mode stochastic scenario) [0; 0.1; 0.2; 0.4]
          (start patternGenerator) high_draws).
Proof.
  split; [reflexivity | ].
  apply (stochastic_one_sided (with_mode stochastic scenario)). reflexivity.
Defined.



(** The envelope is the factor that scales every buzz output. *)
Lemma stochastic_output_enveloped (config : Config) (dt : R)
    (this : Generator) (g : Random) :
  let '(o, this', _) := updateStochastic config dt this g in
  o = silent
  \/ exists n : nat,
       left o + right o =
         baseIntensity config (draws g n) * globalMultiplier config (currentTime this').
Proof.
  pose proof (updateStochastic_output config dt this g) as H.
  destruct (updateStochastic config dt this g) as [[o this'] g'].
  destruct H as [_ H]. destruct (stochasticPhase this').
  - left. exact H.
  - right. destruct H as [n H]. exists n. cbv zeta in H. subst o.
    destruct (stochasticNextMotor this'); cbn [left right]; lra.
Qed.

(** ** Frames *)

(** C10. Each update function changes the fields of its own mode family only:
    [updateStochastic] leaves [pulseTime], [cyclePhaseIndex],
    [lastPulseCycleIndex] and [breathingTime] as they were;
    [updateBreathingPulse] leaves everything but [breathingTime];
    [updateConstant] leaves everything but [pulseTime]; [updateCycle] leaves
    everything but [pulseTime], [cyclePhaseIndex] and [lastPulseCycleIndex]. *)
Theorem update_frames (config : Config) (dt : R) (m : Mode)
    (this : Generator) (g : Random) :
  (keeps_breathing this (snd (fst (updateStochastic config dt this g)))
   /\ keeps_pulse this (snd (fst (updateStochastic config dt this g)))
   /\ keeps_sequencer this (snd (fst (updateStochastic config dt this g))))
  /\ (keeps_stochastic this (snd (updateBreathingPulse config dt this))
      /\ keeps_pulse this (snd (updateBreathingPulse config dt this))
      /\ keeps_sequencer this (snd (updateBreathingPulse config dt this)))
  /\ (keeps_stochastic this (snd (updateConstant config dt m this))
      /\ keeps_breathing this (snd (updateConstant config dt m this))
      /\ keeps_sequencer this (snd (updateConstant config dt m this)))
  /\ (keeps_stochastic this (snd (updateCycle config dt this))
      /\ keeps_breathing this (snd (updateCycle config dt this))).
Proof.
  split; [apply updateStochastic_frame | ].
  split; [apply updateBreathingPulse_frame | ].
  split; [apply updateConstant_frame | apply updateCycle_frame].
Qed.

(** * Further properties of the generator *)

Section MoreGenerator.

Variable config : Config.

(** Outside stochastic mode a call leaves the motor choice alone. *)
Lemma advance_keeps_motor (dt : R) (this : Generator) (g : Random) :
  mode config <> stochastic ->
  stochasticNextMotor (snd (fst (advance config dt this g))) = stochasticNextMotor this.
Proof.
  intros Hm. unfold advance. destruct (mode config); try congruence.
  - reflexivity.
  - pose proof (updateCycle_frame config dt this) as [(_ & _ & _ & H) _].
    destruct (updateCycle config dt this). exact H.
  - pose proof (updateConstant_frame config dt constant_weak this) as [(_ & _ & _ & H) _].
    destruct (updateConstant config dt constant_weak this). exact H.
  - pose proof (updateConstant_frame config dt constant_strong this) as [(_ & _ & _ & H) _].
    destruct (updateConstant config dt constant_strong this). exact H.
  - pose proof (updateConstant_frame config dt constant_max this) as [(_ & _ & _ & H) _].
    destruct (updateConstant config dt constant_max this). exact H.
  - reflexivity.
Qed.

Lemma run_state_keeps_motor (dts : list R) :
  mode config <> stochastic ->
  forall (this : Generator) (g : Random),
    stochasticNextMotor (fst (run_state config dts this g)) = stochasticNextMotor this.
Proof.
  intros Hm. induction dts as [ | dt dts IH]; intros this g; cbn [run_state].
  - reflexivity.
  - pose proof (advance_keeps_motor dt this g Hm) as Hstep.
    destruct (advance config dt this g) as [[o this'] g']. cbn [fst snd] in Hstep.
    rewrite IH. exact Hstep.
Qed.

(** The sequencer index after a call, whatever the mode. *)
Lemma advance_index_range (dt : R) (this : Generator) (g : Random) :
  (0 <= cyclePhaseIndex this < 4)%Z ->
  (0 <= cyclePhaseIndex (snd (fst (advance config dt this g))) < 4)%Z.
Proof.
  intros Hrange. unfold advance. destruct (mode config).
  - pose proof (updateStochastic_frame config dt this g) as (_ & _ & H & _).
    destruct (updateStochastic config dt this g) as [[o this'] g'].
    cbn [fst snd] in *. rewrite H. exact Hrange.
  - exact Hrange.
  - pose proof (updateCycle_state config dt this) as Hstate.
    destruct (updateCycle config dt this) as [o this']. cbn [fst snd] in *.
    rewrite Hstate. unfold sequence. cbv zeta. fields.
    match goal with |- context [(?a >? ?b)%Z] => destruct (a >? b)%Z end; fields.
    + rewrite Z.rem_mod_nonneg by lia.
      apply Z.mod_pos_bound. lia.
    + exact Hrange.
  - pose proof (updateConstant_frame config dt constant_weak this) as (_ & _ & H & _).
    destruct (updateConstant config dt constant_weak this). cbn [fst snd] in *.
    rewrite H. exact Hrange.
  - pose proof (updateConstant_frame config dt constant_strong this) as (_ & _ & H & _).
    destruct (updateConstant config dt constant_strong this). cbn [fst snd] in *.
    rewrite H. exact Hrange.
  - pose proof (updateConstant_frame config dt constant_max this) as (_ & _ & H & _).
    destruct (updateConstant config dt constant_max this). cbn [fst snd] in *.
    rewrite H. exact Hrange.
  - exact Hrange.
Qed.

Lemma run_state_index_range (dts : list R) :
  forall (this : Generator) (g : Random),
    (0 <= cyclePhaseIndex this < 4)%Z ->
    (0 <= cyclePhaseIndex (fst (run_state config dts this g)) < 4)%Z.
Proof.
  induction dts as [ | dt dts IH]; intros this g Hrange; cbn [run_state].
  - exact Hrange.
  - pose proof (advance_index_range dt this g Hrange) as Hstep.
    destruct (advance config dt this g) as [[o this'] g']. apply IH. exact Hstep.
Qed.

(** A whole number of pulse periods does not move the remainder. *)
Lemma rem_period_shift (t : R) (n : Z) :
  0 <= t -> (0 <= n)%Z -> JS.rem (t + IZR n * 300) 300 = JS.rem t 300.
Proof.
  intros Ht Hn.
  destruct (period_split t Ht) as (k & r & Hk & Hr & Hsplit & _).
  rewrite (rem_split t 300 r k ltac:(lra) Hr Hk Hsplit).
  apply (rem_split _ 300 r (k + n)); [lra | exact Hr | lia | ].
  rewrite plus_IZR. lra.
Qed.

(** [updateStochastic] reads the oracle, it does not replace it. *)
Lemma updateStochastic_draws (dt : R) (this : Generator) (g : Random) :
  draws (snd (updateStochastic config dt this g)) = draws g.
Proof.
  unfold updateStochastic, Math_random. fields.
  destruct (Rge_dec (currentTime this + dt) (stochasticPhaseEndTime this));
    destruct (stochasticPhase this) eqn:Hphase; cbn; rewrite ?Hphase;
    try (destruct (Rlt_dec (draws g (S (cursor g))) 0.5); cbn);
    try (destruct (stochasticNextMotor this); cbn);
    reflexivity.
Qed.

Lemma advance_draws (dt : R) (this : Generator) (g : Random) :
  draws (snd (advance config dt this g)) = draws g.
Proof.
  unfold advance. destruct (mode config); try reflexivity.
  - apply updateStochastic_draws.
  - destruct (updateCycle config dt this); reflexivity.
  - destruct (updateConstant config dt constant_weak this); reflexivity.
  - destruct (updateConstant config dt constant_strong this); reflexivity.
  - destruct (updateConstant config dt constant_max this); reflexivity.
Qed.

(** The range of a single stochastic output. *)
Lemma updateStochastic_range (dt : R) (this : Generator) (g : Random) :
  unit_draws g ->
  0 <= weakIntensity config <= strongIntensity config ->
  0 < peakTime config ->
  0 <= currentTime this + dt ->
  0 <= left (fst (fst (updateStochastic config dt this g))) <= strongIntensity config
  /\ 0 <= right (fst (fst (updateStochastic config dt this g))) <= strongIntensity config.
Proof.
  intros Hdraws Hint Hpeak Hclock.
  pose proof (updateStochastic_output config dt this g) as H.
  destruct (updateStochastic config dt this g) as [[o this'] g'].
  destruct H as [Ht H]. cbn [fst].
  destruct (stochasticPhase this').
  - subst o. cbn. lra.
  - destruct H as [n H]. cbv zeta in H.
    assert (Hmul : 0.3 <= globalMultiplier config (currentTime this') <= 1).
    { apply globalMultiplier_bounds; [exact Hpeak | rewrite Ht; exact Hclock]. }
    assert (Hbase : weakIntensity config <= baseIntensity config (draws g n)
                    <= strongIntensity config).
    { apply baseIntensity_range; [exact Hdraws | lra]. }
    subst o. destruct (stochasticNextMotor this'); cbn [left right]; split; nra.
Qed.

End MoreGenerator.

Section MoreStochastic.

Variable config : Config.

Lemma run_stochastic_range (dts : list R) :
  mode config = stochastic ->
  0 <= weakIntensity config <= strongIntensity config ->
  0 < peakTime config ->
  Forall (Rle 0) dts ->
  forall (this : Generator) (g : Random),
    unit_draws g -> 0 <= currentTime this ->
    Forall (fun o : Output =>
              0 <= left o <= strongIntensity config
              /\ 0 <= right o <= strongIntensity config)
           (run config dts this g).
Proof.
  intros Hm Hint Hpeak Hdts.
  induction Hdts as [ | dt dts Hdt _ IH]; intros this g Hdraws Hclock; cbn [run].
  - constructor.
  - assert (Hnext : 0 <= currentTime this + dt) by lra.
    pose proof (updateStochastic_range config dt this g Hdraws Hint Hpeak Hnext) as Hout.
    pose proof (updateStochastic_output config dt this g) as Hstep.
    pose proof (updateStochastic_draws config dt this g) as Hsame.
    unfold advance. rewrite Hm.
    destruct (updateStochastic config dt this g) as [[o this'] g'].
    cbn [fst snd] in *. destruct Hstep as [Ht _].
    constructor; [exact Hout | ].
    apply IH.
    + intros n. rewrite Hsame. apply Hdraws.
    + rewrite Ht. exact Hnext.
Qed.

End MoreStochastic.

(** ** [start] composed with a run *)

(** X1. [start] is idempotent, and outside stochastic mode [start] after any
    run of calls gives back exactly the state that [start] gave before the
    run: the one field [start] does not assign, [stochasticNextMotor], is
    not written by the other modes. *)
Theorem restart_round_trip (config : Config) (dts : list R)
    (this : Generator) (g : Random) :
  mode config <> stochastic ->
  start (start this) = start this
  /\ start (fst (run_state config dts (start this) g)) = start this.
Proof.
  intros Hm. split; [reflexivity | ].
  rewrite (start_fields (fst (run_state config dts (start this) g))).
  rewrite (run_state_keeps_motor config dts Hm). reflexivity.
Qed.

Lemma restart_round_trip_witness :
  mode scenario <> stochastic
  /\ start (start patternGenerator) = start patternGenerator
  /\ start (fst (run_state scenario [0.05; 0.3; 1] (start patternGenerator) high_draws))
     = start patternGenerator.
Proof.
  assert (Hm : mode scenario <> stochastic) by (cbn; discriminate).
  split; [exact Hm | ].
  exact (restart_round_trip scenario [0.05; 0.3; 1] patternGenerator high_draws Hm).
Defined.

(** ** Constant modes: the duty cycle *)

(** X2. In [updateConstant], when the advanced pulse clock stands [r]
    milliseconds into its [k]-th 300 ms period, the call returns the intensity
    selected by the mode on both channels if [r < 200] and (0, 0) if
    [200 <= r]. *)
Theorem constant_duty_cycle (config : Config) (dt : R) (m : Mode)
    (this : Generator) (k : Z) (r : R) :
  (0 <= k)%Z -> 0 <= r < 300 ->
  pulseTime this + dt * 1000 = IZR k * 300 + r ->
  (r < 200 ->
   fst (updateConstant config dt m this) = both (selectedIntensity config m))
  /\ (200 <= r -> fst (updateConstant config dt m this) = silent).
Proof.
  intros Hk Hr Hsplit.
  rewrite (updateConstant_split config dt m this k r Hk Hr Hsplit). cbn [fst].
  split; intros Hcase; destruct (Rlt_dec r 200); try reflexivity; lra.
Qed.

Lemma constant_duty_cycle_witness :
  (0 <= 2)%Z /\ 0 <= 250 < 300
  /\ pulseTime patternGenerator + 0.85 * 1000 = IZR 2 * 300 + 250
  /\ 200 <= 250
  /\ fst (updateConstant scenario 0.85 constant_weak patternGenerator) = silent.
Proof.
  assert (Hk : (0 <= 2)%Z) by lia.
  assert (Hr : 0 <= 250 < 300) by lra.
  assert (Hsplit : pulseTime patternGenerator + 0.85 * 1000 = IZR 2 * 300 + 250)
    by (cbn; lra).
  assert (Hgap : 200 <= 250) by lra.
  repeat split; try assumption; try lra.
  exact (proj2 (constant_duty_cycle scenario 0.85 constant_weak patternGenerator
                  2 250 Hk Hr Hsplit) Hgap).
Defined.

Lemma updateConstant_clock (config : Config) (dt : R) (m : Mode) (this : Generator) :
  pulseTime (snd (updateConstant config dt m this)) = pulseTime this + dt * 1000.
Proof.
  unfold updateConstant. cbv zeta.
  match goal with |- context [Rlt_dec ?a ?b] => destruct (Rlt_dec a b) end; reflexivity.
Qed.

(** X3. The output of [updateConstant] depends on the pulse clock only through
    its position in the 300 ms period: two calls that leave behind clocks a
    whole number of periods apart, the lower one not negative, return the
    same output. *)
Theorem constant_periodic_in_clock (config : Config) (dt dt' : R) (m : Mode)
    (this other : Generator) (n : Z) :
  (0 <= n)%Z ->
  0 <= pulseTime (snd (updateConstant config dt m this)) ->
  pulseTime (snd (updateConstant config dt' m other))
    = pulseTime (snd (updateConstant config dt m this)) + IZR n * 300 ->
  fst (updateConstant config dt' m other) = fst (updateConstant config dt m this).
Proof.
  rewrite !updateConstant_clock. intros Hn Hclock Hother.
  unfold updateConstant. cbv zeta. fields.
  unfold CONSTANT_PULSE_BUZZ_MS, CONSTANT_PULSE_GAP_MS.
  replace (200 + 100) with 300 by lra.
  rewrite Hother, (rem_period_shift _ n Hclock Hn).
  destruct (Rlt_dec (JS.rem (pulseTime this + dt * 1000) 300) 200); reflexivity.
Qed.

Lemma constant_periodic_in_clock_witness :
  (0 <= 3)%Z
  /\ 0 <= pulseTime (snd (updateConstant scenario 0.05 constant_weak patternGenerator))
  /\ pulseTime (snd (updateConstant scenario 0.05 constant_weak
                       (set_pulseTime 900 patternGenerator)))
     = pulseTime (snd (updateConstant scenario 0.05 constant_weak patternGenerator))
       + IZR 3 * 300
  /\ fst (updateConstant scenario 0.05 constant_weak (set_pulseTime 900 patternGenerator))
     = fst (updateConstant scenario 0.05 constant_weak patternGenerator).
Proof.
  assert (Hn : (0 <= 3)%Z) by lia.
  assert (Hclock : 0 <= pulseTime (snd (updateConstant scenario 0.05 constant_weak
                                          patternGenerator)))
    by (rewrite updateConstant_clock; cbn; lra).
  assert (Hother : pulseTime (snd (updateConstant scenario 0.05 constant_weak
                                     (set_pulseTime 900 patternGenerator)))
                   = pulseTime (snd (updateConstant scenario 0.05 constant_weak
                                       patternGenerator)) + IZR 3 * 300)
    by (rewrite !updateConstant_clock; cbn; lra).
  split; [exact Hn | split; [exact Hclock | split; [exact Hother | ]]].
  exact (constant_periodic_in_clock scenario 0.05 0.05 constant_weak patternGenerator
           (set_pulseTime 900 patternGenerator) 3 Hn Hclock Hother).
Defined.

(** ** Cycle mode: the sequencer *)

(** X4. From [start] on, after any run of calls in any mode, [cyclePhaseIndex]
    is one of 0, 1, 2, 3, so the [switch] of [updateCycle] always finds its
    case. *)
Theorem cycle_index_in_range (config : Config) (dts : list R)
    (this : Generator) (g : Random) :
  (0 <= cyclePhaseIndex (fst (run_state config dts (start this) g)) < 4)%Z.
Proof.
  apply run_state_index_range. cbn. lia.
Qed.

(** X5. After a call of [updateCycle], [lastPulseCycleIndex] is the larger of
    its old value and the period the clock is now in, so it never decreases;
    [cyclePhaseIndex] advances by one modulo 4 exactly when
    [lastPulseCycleIndex] has grown and is kept otherwise. *)
Theorem sequencer_follows_maximum (config : Config) (dt : R) (this : Generator) :
  lastPulseCycleIndex (snd (updateCycle config dt this)) =
    Z.max (lastPulseCycleIndex this) (JS.floor ((pulseTime this + dt * 1000) / 300))
  /\ cyclePhaseIndex (snd (updateCycle config dt this)) =
       if (lastPulseCycleIndex this
           <? lastPulseCycleIndex (snd (updateCycle config dt this)))%Z
       then Z.rem (cyclePhaseIndex this + 1) 4
       else cyclePhaseIndex this.
Proof.
  rewrite updateCycle_state. unfold sequence. cbv zeta. fields.
  unfold CONSTANT_PULSE_BUZZ_MS, CONSTANT_PULSE_GAP_MS.
  replace (200 + 100) with 300 by lra.
  destruct (Z.gtb_spec (JS.floor ((pulseTime this + dt * 1000) / 300))
              (lastPulseCycleIndex this)) as [Hgt | Hle]; fields.
  - split; [lia | ].
    destruct (Z.ltb_spec (lastPulseCycleIndex this)
                (JS.floor ((pulseTime this + dt * 1000) / 300))); [reflexivity | lia].
  - split; [lia | ].
    rewrite Z.ltb_irrefl. reflexivity.
Qed.

(** X6. In cycle mode, for any run of calls after [start] in which every [dt]
    is nonnegative and shorter than a pulse period, the output of a call
    whose clock reads [t] milliseconds is (0, 0) in the gap ([t % 300 >= 200])
    and otherwise the pattern of phase [(floor (t / 300) + 1) mod 4]: pulse
    period number [n] plays phase [(n + 1) mod 4]. *)
Theorem cycle_phase_by_period (config : Config) (dts : list R)
    (this : Generator) (g : Random) :
  mode config = cycle ->
  Forall (fun dt : R => 0 <= dt /\ dt * 1000 < 300) dts ->
  run config dts (start this) g =
    map (fun t : R =>
           if Rlt_dec (JS.rem t 300) 200
           then phaseOutput config ((JS.floor (t / 300) + 1) mod 4)
           else silent)
        (clock 0 dts).
Proof.
  intros Hm Hdts. apply (cycle_run_after_start config dts this g Hm Hdts).
Qed.

Lemma cycle_phase_by_period_witness :
  mode (with_mode cycle scenario) = cycle
  /\ Forall (fun dt : R => 0 <= dt /\ dt * 1000 < 300) [0.016; 0.25; 0.1]
  /\ run (with_mode cycle scenario) [0.016; 0.25; 0.1] (start patternGenerator) low_draws =
       map (fun t : R =>
              if Rlt_dec (JS.rem t 300) 200
              then phaseOutput (with_mode cycle scenario) ((JS.floor (t / 300) + 1) mod 4)
              else silent)
           (clock 0 [0.016; 0.25; 0.1]).
Proof.
  assert (Hm : mode (with_mode cycle scenario) = cycle) by reflexivity.
  assert (Hdts : Forall (fun dt : R => 0 <= dt /\ dt * 1000 < 300) [0.016; 0.25; 0.1])
    by (repeat constructor; lra).
  split; [exact Hm | split; [exact Hdts | ]].
  exact (cycle_phase_by_period (with_mode cycle scenario) [0.016; 0.25; 0.1]
           patternGenerator low_draws Hm Hdts).
Defined.

(** ** Stochastic mode: phases and the motor *)

(** X7. With draws in [0, 1), [buzzMin <= buzzMax] and [maxGap >= 0], a call
    of [updateStochastic] whose clock has reached [stochasticPhaseEndTime]
    flips the phase and schedules the next end inside the configured window:
    a new buzz ends between [buzzMin] and [buzzMax] milliseconds after the
    clock, a new gap between 0 and [maxGap] milliseconds after it. *)
Theorem stochastic_phase_schedule (config : Config) (dt : R)
    (this : Generator) (g : Random) :
  unit_draws g ->
  buzzMin config <= buzzMax config ->
  0 <= maxGap config ->
  stochasticPhaseEndTime this <= currentTime this + dt ->
  match stochasticPhase this with
  | Gap =>
      stochasticPhase (snd (fst (updateStochastic config dt this g))) = Buzz
      /\ currentTime this + dt + buzzMin config / 1000
         <= stochasticPhaseEndTime (snd (fst (updateStochastic config dt this g)))
         <= currentTime this + dt + buzzMax config / 1000
  | Buzz =>
      stochasticPhase (snd (fst (updateStochastic config dt this g))) = Gap
      /\ currentTime this + dt
         <= stochasticPhaseEndTime (snd (fst (updateStochastic config dt this g)))
         <= currentTime this + dt + maxGap config / 1000
  end.
Proof.
  intros Hdraws Hbuzz Hgap Hend.
  destruct (Hdraws (cursor g)) as [Hlo Hhi].
  unfold updateStochastic, Math_random. fields.
  destruct (Rge_dec (currentTime this + dt) (stochasticPhaseEndTime this)) as [_ | Hno];
    [ | lra].
  destruct (stochasticPhase this); cbn.
  - destruct (Rlt_dec (draws g (S (cursor g))) 0.5); cbn;
      (split; [reflexivity | split; nra]).
  - split; [reflexivity | split; nra].
Qed.

Lemma stochastic_phase_schedule_witness :
  unit_draws high_draws
  /\ buzzMin (with_mode stochastic scenario) <= buzzMax (with_mode stochastic scenario)
  /\ 0 <= maxGap (with_mode stochastic scenario)
  /\ stochasticPhaseEndTime patternGenerator <= currentTime patternGenerator + 0.016
  /\ stochasticPhase
       (snd (fst (updateStochastic (with_mode stochastic scenario) 0.016
                    patternGenerator high_draws))) = Buzz
  /\ currentTime patternGenerator + 0.016
     + buzzMin (with_mode stochastic scenario) / 1000
     <= stochasticPhaseEndTime
          (snd (fst (updateStochastic (with_mode stochastic scenario) 0.016
                       patternGenerator high_draws)))
     <= currentTime patternGenerator + 0.016
        + buzzMax (with_mode stochastic scenario) / 1000.
Proof.
  assert (Hdraws : unit_draws high_draws) by (intros n; cbn; lra).
  assert (Hbuzz : buzzMin (with_mode stochastic scenario)
                  <= buzzMax (with_mode stochastic scenario)) by (cbn; lra).
  assert (Hgap : 0 <= maxGap (with_mode stochastic scenario)) by (cbn; lra).
  assert (Hend : stochasticPhaseEndTime patternGenerator
                 <= currentTime patternGenerator + 0.016) by (cbn; lra).
  split; [exact Hdraws | split; [exact Hbuzz | split; [exact Hgap | split; [exact Hend | ]]]].
  exact (stochastic_phase_schedule (with_mode stochastic scenario) 0.016
           patternGenerator high_draws Hdraws Hbuzz Hgap Hend).
Defined.

(** X8. [updateStochastic] changes [stochasticNextMotor] only in a call that
    starts a buzz: within a buzz, when a buzz ends and during a gap the motor
    keeps its value. *)
Theorem motor_changes_only_at_buzz_start (config : Config) (dt : R)
    (this : Generator) (g : Random) :
  stochasticNextMotor (snd (fst (updateStochastic config dt this g)))
    = stochasticNextMotor this
  \/ (stochasticPhase this = Gap
      /\ stochasticPhase (snd (fst (updateStochastic config dt this g))) = Buzz).
Proof.
  unfold updateStochastic, Math_random. fields.
  destruct (Rge_dec (currentTime this + dt) (stochasticPhaseEndTime this));
    destruct (stochasticPhase this) eqn:Hphase; cbn; rewrite ?Hphase;
    try (destruct (Rlt_dec (draws g (S (cursor g))) 0.5); cbn);
    try (destruct (stochasticNextMotor this) eqn:Hmotor; cbn; rewrite ?Hphase, ?Hmotor);
    first [left; reflexivity | right; split; reflexivity].
Qed.

(** X9. A call of [updateStochastic] whose clock stays below
    [stochasticPhaseEndTime] changes nothing but [currentTime]; it takes one
    draw in a buzz (the jitter of the intensity) and none in a gap. *)
Theorem stochastic_waits (config : Config) (dt : R) (this : Generator) (g : Random) :
  currentTime this + dt < stochasticPhaseEndTime this ->
  snd (fst (updateStochastic config dt this g))
    = set_currentTime (currentTime this + dt) this
  /\ cursor (snd (updateStochastic config dt this g))
     = match stochasticPhase this with
       | Buzz => S (cursor g)
       | Gap => cursor g
       end.
Proof.
  intros Hwait. unfold updateStochastic, Math_random. fields.
  destruct (Rge_dec (currentTime this + dt) (stochasticPhaseEndTime this)) as [Hend | _];
    [lra | ].
  cbn. destruct (stochasticPhase this) eqn:Hphase; cbn; rewrite ?Hphase.
  - split; reflexivity.
  - destruct (stochasticNextMotor this); cbn; split; reflexivity.
Qed.

Lemma stochastic_waits_witness :
  currentTime (set_stochasticPhaseEndTime 1 patternGenerator) + 0.5
    < stochasticPhaseEndTime (set_stochasticPhaseEndTime 1 patternGenerator)
  /\ snd (fst (updateStochastic scenario 0.5
                 (set_stochasticPhaseEndTime 1 patternGenerator) high_draws))
     = set_currentTime
         (currentTime (set_stochasticPhaseEndTime 1 patternGenerator) + 0.5)
         (set_stochasticPhaseEndTime 1 patternGenerator)
  /\ cursor (snd (updateStochastic scenario 0.5
                    (set_stochasticPhaseEndTime 1 patternGenerator) high_draws))
     = cursor high_draws.
Proof.
  assert (Hwait : currentTime (set_stochasticPhaseEndTime 1 patternGenerator) + 0.5
                  < stochasticPhaseEndTime (set_stochasticPhaseEndTime 1 patternGenerator))
    by (cbn; lra).
  split; [exact Hwait | ].
  exact (stochastic_waits scenario 0.5 (set_stochasticPhaseEndTime 1 patternGenerator)
           high_draws Hwait).
Defined.

(** X10. In stochastic mode with draws in [0, 1), [0 <= weakIntensity <=
    strongIntensity] and [peakTime > 0], every output of a run of calls with
    nonnegative [dt] after [start] has both channels between 0 and
    [strongIntensity]. *)
Theorem stochastic_session_range (config : Config) (dts : list R)
    (this : Generator) (g : Random) :
  mode config = stochastic ->
  unit_draws g ->
  0 <= weakIntensity config <= strongIntensity config ->
  0 < peakTime config ->
  Forall (Rle 0) dts ->
  Forall (fun o : Output =>
            0 <= left o <= strongIntensity config
            /\ 0 <= right o <= strongIntensity config)
         (run config dts (start this) g).
Proof.
  intros Hm Hdraws Hint Hpeak Hdts.
  apply (run_stochastic_range config dts Hm Hint Hpeak Hdts); [exact Hdraws | cbn; lra].
Qed.

Lemma stochastic_session_range_witness :
  mode (with_mode stochastic scenario) = stochastic
  /\ unit_draws high_draws
  /\ 0 <= weakIntensity (with_mode stochastic scenario)
       <= strongIntensity (with_mode stochastic scenario)
  /\ 0 < peakTime (with_mode stochastic scenario)
  /\ Forall (Rle 0) [0; 0.016; 0.5; 2]
  /\ Forall (fun o : Output =>
               0 <= left o <= strongIntensity (with_mode stochastic scenario)
               /\ 0 <= right o <= strongIntensity (with_mode stochastic scenario))
            (run (with_mode stochastic scenario) [0; 0.016; 0.5; 2]
               (start patternGenerator) high_draws).
Proof.
  assert (Hm : mode (with_mode stochastic scenario) = stochastic) by reflexivity.
  assert (Hdraws : unit_draws high_draws) by (intros n; cbn; lra).
  assert (Hint : 0 <= weakIntensity (with_mode stochastic scenario)
                   <= strongIntensity (with_mode stochastic scenario)) by (cbn; lra).
  assert (Hpeak : 0 < peakTime (with_mode stochastic scenario)) by (cbn; lra).
  assert (Hdts : Forall (Rle 0) [0; 0.016; 0.5; 2]) by (repeat constructor; lra).
  split; [exact Hm | split; [exact Hdraws | split; [exact Hint | split; [exact Hpeak | ]]]].
  split; [exact Hdts | ].
  exact (stochastic_session_range (with_mode stochastic scenario) [0; 0.016; 0.5; 2]
           patternGenerator high_draws Hm Hdraws Hint Hpeak Hdts).
Defined.

(** ** Breathing-pulse mode: the two tones *)

Section MoreBreathing.

Variable config : Config.

Lemma periodOrOne_of_positive (period : R) : 0 < period -> periodOrOne period = period.
Proof.
  intros Hp. unfold periodOrOne. destruct (Rgt_dec period 0); [reflexivity | lra].
Qed.

End MoreBreathing.

(** X13. With [breathingPulsePeriod > 0], the left channel of
    [updateBreathingPulse] is exactly [maxIntensity] when the advanced clock
    stands at a quarter of the period and exactly
    [breathingPulseMinIntensity] at three quarters: the swing uses the whole
    interval between the two settings. *)
Theorem breathing_reaches_extremes (config : Config) (this : Generator) :
  0 < breathingPulsePeriod config ->
  left (fst (updateBreathingPulse config
               (breathingPulsePeriod config / 4 - breathingTime this) this))
    = maxIntensity config
  /\ left (fst (updateBreathingPulse config
                  (3 * breathingPulsePeriod config / 4 - breathingTime this) this))
     = breathingPulseMinIntensity config.
Proof.
  intros Hp. rewrite !updateBreathingPulse_closed. cbv zeta. cbn [fst left].
  rewrite (periodOrOne_of_positive _ Hp). unfold tone, center, amplitude. split.
  - replace (2 * PI * (1 / breathingPulsePeriod config)
             * (breathingTime this
                + (breathingPulsePeriod config / 4 - breathingTime this)))
      with (PI / 2) by (field; lra).
    rewrite sin_PI2. lra.
  - replace (2 * PI * (1 / breathingPulsePeriod config)
             * (breathingTime this
                + (3 * breathingPulsePeriod config / 4 - breathingTime this)))
      with (3 * (PI / 2)) by (field; lra).
    rewrite sin_3PI2. lra.
Qed.

Lemma breathing_reaches_extremes_witness :
  0 < breathingPulsePeriod scenario
  /\ left (fst (updateBreathingPulse scenario
                  (breathingPulsePeriod scenario / 4 - breathingTime patternGenerator)
                  patternGenerator))
     = maxIntensity scenario
  /\ left (fst (updateBreathingPulse scenario
                  (3 * breathingPulsePeriod scenario / 4 - breathingTime patternGenerator)
                  patternGenerator))
     = breathingPulseMinIntensity scenario.
Proof.
  assert (Hp : 0 < breathingPulsePeriod scenario) by (cbn; lra).
  split; [exact Hp | ].
  exact (breathing_reaches_extremes scenario patternGenerator Hp).
Defined.

(** ** The clamp of [gameLoop] *)

Lemma clamp_value_cases (x : R) :
  (x < 0 /\ Rmax 0 (Rmin 255 x) = 0)
  \/ (0 <= x <= 255 /\ Rmax 0 (Rmin 255 x) = x)
  \/ (255 < x /\ Rmax 0 (Rmin 255 x) = 255).
Proof.
  unfold Rmax, Rmin.
  destruct (Rle_dec 255 x) as [Hhigh | Hlow].
  - destruct (Rle_dec 0 255) as [_ | Hno]; [ | lra].
    destruct (Req_dec x 255) as [-> | Hne].
    + right. left. split; lra.
    + right. right. split; lra.
  - destruct (Rle_dec 0 x) as [Hpos | Hneg].
    + right. left. split; lra.
    + left. split; lra.
Qed.

Lemma clamp_value_idempotent (x : R) :
  Rmax 0 (Rmin 255 (Rmax 0 (Rmin 255 x))) = Rmax 0 (Rmin 255 x).
Proof.
  destruct (clamp_value_cases x) as [[_ ->] | [[Hx ->] | [_ ->]]].
  - destruct (clamp_value_cases 0) as [[H _] | [[_ ->] | [H _]]]; lra.
  - destruct (clamp_value_cases x) as [[H _] | [[_ ->] | [H _]]]; lra.
  - destruct (clamp_value_cases 255) as [[H _] | [[_ ->] | [H _]]]; lra.
Qed.

(** X14. One channel of the clamp of [gameLoop],
    [Math.max(0, Math.min(255, value))]: every real number and both
    infinities land between 0 and 255, a value already in that range is
    left as it is, clamping twice is clamping once, and NaN comes out as
    NaN: the clamp does not catch it.  On real numbers it is [clamp]. *)
Theorem clamp_value_edges (value : Number) (o : Output) :
  clampValue (clampValue value) = clampValue value
  /\ match value with
     | NaN => clampValue value = NaN
     | NegInfinity => clampValue value = Finite 0
     | Infinity => clampValue value = Finite 255
     | Finite x =>
         exists y : R,
           clampValue value = Finite y
           /\ 0 <= y <= 255
           /\ (y = x \/ x < 0 \/ 255 < x)
     end
  /\ clampValue (Finite (left o)) = Finite (left (clamp o))
  /\ clampValue (Finite (right o)) = Finite (right (clamp o)).
Proof.
  assert (Htop : Rmax 0 255 = 255) by (apply Rmax_right; lra).
  assert (Hbottom : Rmax 0 (Rmin 255 0) = 0)
    by (rewrite (Rmin_right 255 0), (Rmax_left 0 0) by lra; reflexivity).
  assert (Hkeep : Rmax 0 (Rmin 255 255) = 255)
    by (rewrite (Rmin_left 255 255), (Rmax_right 0 255) by lra; reflexivity).
  split; [ | split; [ | split; reflexivity]].
  - destruct value as [ | | x | ]; unfold clampValue; cbn [Math_min Math_max].
    + reflexivity.
    + rewrite Hbottom. reflexivity.
    + rewrite clamp_value_idempotent. reflexivity.
    + rewrite Htop, Hkeep. reflexivity.
  - destruct value as [ | | x | ]; unfold clampValue; cbn [Math_min Math_max].
    + reflexivity.
    + reflexivity.
    + exists (Rmax 0 (Rmin 255 x)). split; [reflexivity | ].
      destruct (clamp_value_cases x) as [[Hx ->] | [[Hx ->] | [Hx ->]]].
      * split; [lra | right; left; exact Hx].
      * split; [lra | left; reflexivity].
      * split; [lra | right; right; exact Hx].
    + rewrite Htop. reflexivity.
Qed.

(** * Properties of the session *)

(** [updateVisualizer] writes on the page and nowhere else. *)
Lemma updateVisualizer_only_ui_at (w : Session.World) (l r e : R) :
  Session.updateVisualizer l r e w =
    Session.set_ui (Session.ui (Session.updateVisualizer l r e w)) w.
Proof.
  unfold Session.updateVisualizer. destruct (mode (Session.config w)); reflexivity.
Qed.

Lemma updateVisualizer_buttons (w : Session.World) (l r e : R) :
  Session.startButton_disabled (Session.ui (Session.updateVisualizer l r e w))
    = Session.startButton_disabled (Session.ui w)
  /\ Session.stopButton_disabled (Session.ui (Session.updateVisualizer l r e w))
     = Session.stopButton_disabled (Session.ui w).
Proof.
  unfold Session.updateVisualizer.
  destruct (mode (Session.config w)); split; reflexivity.
Qed.

Section SessionSteps.

Variable w : Session.World.

Lemma gameLoop_inactive (now : R) :
  Session.sessionActive w = false -> Session.gameLoop now w = w.
Proof.
  intros Hoff. unfold Session.gameLoop. rewrite Hoff. reflexivity.
Qed.

Lemma gameLoop_ended (now : R) :
  Session.sessionActive w = true ->
  sessionLength (Session.config w) <= elapsed now w ->
  Session.gameLoop now w = Session.stopSession (Session.set_lastUpdateTime now w).
Proof.
  unfold elapsed. intros Hon Hend. unfold Session.gameLoop. rewrite Hon.
  cbn [negb]. cbv zeta.
  match goal with |- context [Rge_dec ?a ?b] => destruct (Rge_dec a b) as [_ | Hno] end;
    [reflexivity | ].
  exfalso. apply Hno. cbn. lra.
Qed.

(** A frame inside the session, step by step. *)
Lemma gameLoop_running (now : R) :
  Session.sessionActive w = true ->
  elapsed now w < sessionLength (Session.config w) ->
  Session.gameLoop now w =
    let result :=
      advance (Session.config w) ((now - Session.lastUpdateTime w) / 1000)
        (Session.generator w) (Session.random w) in
    let motorValues := clamp (fst (fst result)) in
    let w1 :=
      Session.set_random (snd result)
        (Session.set_generator (snd (fst result))
           (Session.set_lastUpdateTime now w)) in
    let w2 :=
      if Session.canRumble w
      then Session.emit
             (Session.playEffect 200 (right motorValues / 255) (left motorValues / 255))
             w1
      else w1 in
    Session.emit Session.requestAnimationFrame
      (Session.updateVisualizer (left motorValues) (right motorValues)
         (elapsed now w) w2).
Proof.
  unfold elapsed. intros Hon Hin. unfold Session.gameLoop. rewrite Hon.
  cbn [negb]. cbv zeta.
  match goal with |- context [Rge_dec ?a ?b] => destruct (Rge_dec a b) as [Hend | _] end.
  - exfalso. cbn in Hend. lra.
  - destruct (advance (Session.config (Session.set_lastUpdateTime now w))
                ((now - Session.lastUpdateTime w) / 1000)
                (Session.generator (Session.set_lastUpdateTime now w))
                (Session.random (Session.set_lastUpdateTime now w)))
      as [[o this] g] eqn:Hadv.
    cbn in Hadv. rewrite Hadv. cbn [fst snd]. reflexivity.
Qed.

Lemma stopSession_effects :
  Session.effects (Session.stopSession w) =
    Session.effects w
    ++ (if Session.canRumble w then [Session.playEffect 50 0 0] else []).
Proof.
  unfold Session.stopSession. cbv zeta.
  match goal with
  | |- context [Session.updateVisualizer ?l ?r ?e ?x] =>
      rewrite (updateVisualizer_only_ui_at x l r e)
  end.
  unfold Session.canRumble. cbn.
  destruct (Session.joystick w) as [pad | ]; cbn.
  - destruct (Session.connected pad && Session.vibrationActuator pad)%bool; cbn;
      [reflexivity | rewrite app_nil_r; reflexivity].
  - rewrite app_nil_r. reflexivity.
Qed.

Lemma stopSession_state :
  Session.sessionActive (Session.stopSession w) = false
  /\ Session.generator (Session.stopSession w) = Session.generator w
  /\ Session.random (Session.stopSession w) = Session.random w
  /\ Session.config (Session.stopSession w) = Session.config w
  /\ Session.joystick (Session.stopSession w) = Session.joystick w
  /\ Session.startButton_disabled (Session.ui (Session.stopSession w)) = false
  /\ Session.stopButton_disabled (Session.ui (Session.stopSession w)) = true.
Proof.
  unfold Session.stopSession. cbv zeta.
  match goal with
  | |- context [Session.updateVisualizer ?l ?r ?e ?x] =>
      rewrite (updateVisualizer_only_ui_at x l r e)
  end.
  cbn [Session.set_ui Session.ui Session.set_phaseInfo Session.sessionActive
       Session.generator Session.random Session.config Session.joystick
       Session.startButton_disabled Session.stopButton_disabled].
  match goal with
  | |- context [Session.updateVisualizer ?l ?r ?e ?x] =>
      destruct (updateVisualizer_buttons x l r e) as [-> ->]
  end.
  match goal with
  | |- context [if ?c then _ else _] => destruct c
  end; cbn; repeat split.
Qed.

End SessionSteps.

Lemma clamp_bounds (o : Output) :
  0 <= left (clamp o) <= 255 /\ 0 <= right (clamp o) <= 255.
Proof.
  destruct o as [l r]. unfold clamp, JS.max, JS.min. cbn [left right].
  destruct (clamp_value_cases l) as [[_ ->] | [[Hl ->] | [_ ->]]];
    destruct (clamp_value_cases r) as [[_ ->] | [[Hr ->] | [_ ->]]];
    lra.
Qed.

(** The vibration command of a frame. *)
Lemma rumble_safe (o : Output) :
  safe_effect (Session.playEffect 200 (right (clamp o) / 255) (left (clamp o) / 255)).
Proof.
  destruct (clamp_bounds o) as [[Hl1 Hl2] [Hr1 Hr2]]. unfold safe_effect.
  repeat split; try (apply div_nonneg; lra); try (left; reflexivity).
  - apply Rmult_le_reg_r with 255; [lra | ].
    replace (right (clamp o) / 255 * 255) with (right (clamp o)) by (field; lra). lra.
  - apply Rmult_le_reg_r with 255; [lra | ].
    replace (left (clamp o) / 255 * 255) with (left (clamp o)) by (field; lra). lra.
Qed.

Section SessionEffects.

Variable w : Session.World.

(** What a frame adds to the calls made so far. *)
Lemma gameLoop_effects (now : R) :
  exists new : list Session.Effect,
    Session.effects (Session.gameLoop now w) = Session.effects w ++ new
    /\ Forall safe_effect new
    /\ (Session.canRumble w = false ->
        Forall (fun e => e = Session.requestAnimationFrame) new)
    /\ (Session.sessionActive w = false -> new = []).
Proof.
  destruct (Session.sessionActive w) eqn:Hon.
  - destruct (Rlt_le_dec (elapsed now w) (sessionLength (Session.config w)))
      as [Hin | Hend].
    + rewrite (gameLoop_running w now Hon Hin). cbv zeta.
      cbn [Session.emit Session.effects].
      rewrite updateVisualizer_only_ui_at. cbn [Session.set_ui Session.effects].
      destruct (Session.canRumble w) eqn:Hpad; cbn [Session.emit Session.effects
        Session.set_random Session.set_generator Session.set_lastUpdateTime].
      * eexists. split; [rewrite <- app_assoc; reflexivity | ].
        split; [ | split; [discriminate | discriminate]].
        constructor; [apply rumble_safe | constructor; [exact I | constructor]].
      * eexists. split; [reflexivity | ].
        split; [constructor; [exact I | constructor] | ].
        split; [intros _; constructor; [reflexivity | constructor] | discriminate].
    + rewrite (gameLoop_ended w now Hon Hend), stopSession_effects.
      cbn [Session.effects Session.set_lastUpdateTime].
      replace (Session.canRumble (Session.set_lastUpdateTime now w))
        with (Session.canRumble w) by reflexivity.
      eexists. split; [reflexivity | ].
      destruct (Session.canRumble w).
      * split; [ | split; [discriminate | discriminate]].
        constructor; [ | constructor]. cbn. repeat split; lra.
      * split; [constructor | split; [intros _; constructor | discriminate]].
  - rewrite (gameLoop_inactive w now Hon). exists []. rewrite app_nil_r.
    repeat split; constructor.
Qed.

Lemma startSession_effects (now : R) :
  exists new : list Session.Effect,
    Session.effects (Session.startSession now w) = Session.effects w ++ new
    /\ Forall safe_effect new.
Proof.
  unfold Session.startSession.
  destruct (Session.joystick w) as [pad | ].
  - destruct (Session.connected pad); cbn [negb];
      [destruct (Session.vibrationActuator pad); cbn [negb] | ];
      cbn; eexists; (split; [reflexivity | constructor; [exact I | constructor]]).
  - cbn. eexists. split; [reflexivity | constructor; [exact I | constructor]].
Qed.

Lemma handle_effects (e : Event) :
  exists new : list Session.Effect,
    Session.effects (handle e w) = Session.effects w ++ new
    /\ Forall safe_effect new.
Proof.
  destruct e as [pad | | | now | | controls | now]; cbn [handle].
  - exists []. rewrite app_nil_r. split; [reflexivity | constructor].
  - unfold Session.handleGamepadDisconnect. cbv zeta.
    cbn [Session.sessionActive Session.set_ui Session.set_joystick].
    destruct (Session.sessionActive w).
    + rewrite stopSession_effects. cbn. exists []. split; [reflexivity | constructor].
    + cbn. exists []. rewrite app_nil_r. split; [reflexivity | constructor].
  - exists []. rewrite app_nil_r. split; [ | constructor].
    unfold lose. destruct (Session.joystick w); reflexivity.
  - destruct (Session.startButton_disabled (Session.ui w)).
    + exists []. rewrite app_nil_r. split; [reflexivity | constructor].
    + apply startSession_effects.
  - destruct (Session.stopButton_disabled (Session.ui w)).
    + exists []. rewrite app_nil_r. split; [reflexivity | constructor].
    + rewrite stopSession_effects. eexists. split; [reflexivity | ].
      destruct (Session.canRumble w); constructor; [ | constructor].
      cbn. repeat split; lra.
  - exists []. rewrite app_nil_r. split; [reflexivity | constructor].
  - destruct (gameLoop_effects now) as (new & Heq & Hsafe & _).
    exists new. split; assumption.
Qed.

End SessionEffects.

Lemma handle_all_effects (events : list Event) :
  forall w : Session.World,
    exists new : list Session.Effect,
      Session.effects (handle_all events w) = Session.effects w ++ new
      /\ Forall safe_effect new.
Proof.
  induction events as [ | e events IH]; intros w; cbn [handle_all].
  - exists []. rewrite app_nil_r. split; [reflexivity | constructor].
  - destruct (handle_effects w e) as (new1 & Heq1 & Hsafe1).
    destruct (IH (handle e w)) as (new2 & Heq2 & Hsafe2).
    exists (new1 ++ new2). rewrite Heq2, Heq1, app_assoc.
    split; [reflexivity | apply Forall_app; split; assumption].
Qed.

Section SessionInvariants.

Lemma gameLoop_running_state (w : Session.World) (now : R) :
  Session.sessionActive w = true ->
  elapsed now w < sessionLength (Session.config w) ->
  Session.sessionActive (Session.gameLoop now w) = true
  /\ Session.config (Session.gameLoop now w) = Session.config w
  /\ Session.sessionStartTime (Session.gameLoop now w) = Session.sessionStartTime w
  /\ Session.lastUpdateTime (Session.gameLoop now w) = now
  /\ Session.joystick (Session.gameLoop now w) = Session.joystick w
  /\ Session.generator (Session.gameLoop now w) =
       snd (fst (advance (Session.config w) ((now - Session.lastUpdateTime w) / 1000)
                   (Session.generator w) (Session.random w)))
  /\ Session.random (Session.gameLoop now w) =
       snd (advance (Session.config w) ((now - Session.lastUpdateTime w) / 1000)
              (Session.generator w) (Session.random w)).
Proof.
  intros Hon Hin. rewrite (gameLoop_running w now Hon Hin). cbv zeta.
  cbn [Session.emit Session.sessionActive Session.config Session.sessionStartTime
       Session.lastUpdateTime Session.joystick Session.generator Session.random].
  rewrite updateVisualizer_only_ui_at.
  destruct (Session.canRumble w); cbn; rewrite Hon; repeat split.
Qed.

Lemma gameLoop_buttons (w : Session.World) (now : R) :
  buttons_follow w -> buttons_follow (Session.gameLoop now w).
Proof.
  intros Hb. destruct (Session.sessionActive w) eqn:Hon.
  - destruct (Rlt_le_dec (elapsed now w) (sessionLength (Session.config w)))
      as [Hin | Hend].
    + destruct (gameLoop_running_state w now Hon Hin) as (Hact & _).
      unfold buttons_follow. rewrite Hact.
      rewrite (gameLoop_running w now Hon Hin). cbv zeta.
      cbn [Session.emit Session.ui].
      match goal with
      | |- context [Session.updateVisualizer ?l ?r ?e ?x] =>
          destruct (updateVisualizer_buttons x l r e) as [-> ->]
      end.
      destruct Hb as [Hb1 Hb2]. rewrite Hon in Hb1, Hb2.
      destruct (Session.canRumble w); cbn; split; assumption.
    + rewrite (gameLoop_ended w now Hon Hend).
      destruct (stopSession_state (Session.set_lastUpdateTime now w))
        as (Hact & _ & _ & _ & _ & Hstart & Hstop).
      unfold buttons_follow. rewrite Hact, Hstart, Hstop. split; reflexivity.
  - rewrite (gameLoop_inactive w now Hon). exact Hb.
Qed.

Lemma stopSession_buttons (w : Session.World) : buttons_follow (Session.stopSession w).
Proof.
  destruct (stopSession_state w) as (Hact & _ & _ & _ & _ & Hstart & Hstop).
  unfold buttons_follow. rewrite Hact, Hstart, Hstop. split; reflexivity.
Qed.

Lemma startSession_buttons (w : Session.World) (now : R) :
  buttons_follow w -> buttons_follow (Session.startSession now w).
Proof.
  intros Hb. unfold Session.startSession.
  destruct (Session.joystick w) as [pad | ]; [ | exact Hb].
  destruct (Session.connected pad); cbn [negb]; [ | exact Hb].
  destruct (Session.vibrationActuator pad); cbn [negb]; [ | exact Hb].
  split; reflexivity.
Qed.

Lemma handle_buttons (e : Event) (w : Session.World) :
  buttons_follow w -> buttons_follow (handle e w).
Proof.
  intros Hb.
  destruct e as [pad | | | now | | controls | now]; cbn [handle].
  - exact Hb.
  - unfold Session.handleGamepadDisconnect. cbv zeta.
    cbn [Session.sessionActive Session.set_ui Session.set_joystick].
    destruct (Session.sessionActive w) eqn:Hon.
    + apply stopSession_buttons.
    + unfold buttons_follow. cbn. rewrite Hon. destruct Hb as [Hb1 Hb2].
      rewrite Hon in Hb1, Hb2. split; assumption.
  - unfold lose. destruct (Session.joystick w); exact Hb.
  - destruct (Session.startButton_disabled (Session.ui w));
      [exact Hb | apply startSession_buttons; exact Hb].
  - destruct (Session.stopButton_disabled (Session.ui w));
      [exact Hb | apply stopSession_buttons].
  - exact Hb.
  - apply gameLoop_buttons. exact Hb.
Qed.

Lemma handle_all_buttons (events : list Event) :
  forall w : Session.World, buttons_follow w -> buttons_follow (handle_all events w).
Proof.
  induction events as [ | e events IH]; intros w Hb; cbn [handle_all].
  - exact Hb.
  - apply IH, handle_buttons. exact Hb.
Qed.

Lemma frames_inactive (nows : list R) (w : Session.World) :
  Session.sessionActive w = false -> Session.frames nows w = w.
Proof.
  intros Hoff. induction nows as [ | now nows IH]; cbn [Session.frames].
  - reflexivity.
  - rewrite (gameLoop_inactive w now Hoff). exact IH.
Qed.

Lemma last_of_nonempty (x : R) (l : list R) (d d' : R) :
  last (x :: l) d = last (x :: l) d'.
Proof.
  revert x. induction l as [ | y l IH]; intros x; [reflexivity | ].
  change (last (y :: l) d = last (y :: l) d'). apply IH.
Qed.

(** A frame inside the session length keeps the loop going. *)
Lemma frames_running (nows : list R) :
  forall w : Session.World,
    Session.sessionActive w = true ->
    (exists earlier : list Session.Effect,
       Session.effects w = earlier ++ [Session.requestAnimationFrame]) ->
    Forall (fun now : R => elapsed now w < sessionLength (Session.config w)) nows ->
    Session.sessionActive (Session.frames nows w) = true
    /\ Session.config (Session.frames nows w) = Session.config w
    /\ Session.sessionStartTime (Session.frames nows w) = Session.sessionStartTime w
    /\ Session.lastUpdateTime (Session.frames nows w)
       = last nows (Session.lastUpdateTime w)
    /\ exists earlier : list Session.Effect,
         Session.effects (Session.frames nows w)
         = earlier ++ [Session.requestAnimationFrame].
Proof.
  induction nows as [ | now nows IH]; intros w Hon Hlast Hin; cbn [Session.frames].
  - repeat split; try assumption.
  - inversion Hin as [ | ? ? Hnow Hrest]; subst.
    destruct (gameLoop_running_state w now Hon Hnow)
      as (Hact & Hcfg & Hstart & Hupd & _).
    destruct (IH (Session.gameLoop now w)) as (Hact' & Hcfg' & Hstart' & Hupd' & Heff').
    + exact Hact.
    + rewrite (gameLoop_running w now Hon Hnow). cbv zeta.
      cbn [Session.emit Session.effects]. eexists. reflexivity.
    + rewrite Hcfg. unfold elapsed in *. rewrite Hstart. exact Hrest.
    + rewrite Hact', Hcfg', Hstart', Hupd', Hcfg, Hstart, Hupd.
      repeat split; try exact Heff'.
      destruct nows as [ | later nows]; [reflexivity | ].
      change (last (later :: nows) now
              = last (later :: nows) (Session.lastUpdateTime w)).
      apply last_of_nonempty.
Qed.

End SessionInvariants.

Section Display.

Lemma Math_round_bounds (x : R) (a b : Z) :
  IZR a <= x <= IZR b -> (a <= Math_round x <= b)%Z.
Proof.
  intros [Hlo Hhi]. unfold Math_round.
  destruct (floor_bounds (x + 0.5)) as [Hf1 Hf2]. split.
  - apply Z.lt_succ_r, lt_IZR. rewrite succ_IZR. lra.
  - apply Z.lt_succ_r, lt_IZR. rewrite succ_IZR. lra.
Qed.

Lemma updateVisualizer_numbers (w : Session.World) (l r e : R) :
  Session.leftMotorBar_width (Session.ui (Session.updateVisualizer l r e w)) = l / 255 * 100
  /\ Session.rightMotorBar_width (Session.ui (Session.updateVisualizer l r e w))
     = r / 255 * 100
  /\ Session.leftMotorValue (Session.ui (Session.updateVisualizer l r e w)) = Math_round l
  /\ Session.rightMotorValue (Session.ui (Session.updateVisualizer l r e w)) = Math_round r
  /\ Session.timer (Session.ui (Session.updateVisualizer l r e w))
     = (JS.floor e, sessionLength (Session.config w)).
Proof.
  unfold Session.updateVisualizer.
  destruct (mode (Session.config w)); repeat split.
Qed.

Lemma updateVisualizer_stochastic (w : Session.World) (l r e : R) :
  mode (Session.config w) = stochastic ->
  Session.intensityInfo (Session.ui (Session.updateVisualizer l r e w))
    = Math_round (globalMultiplier (Session.config w)
                    (currentTime (Session.generator w)) * 100)
  /\ Session.phaseInfo (Session.ui (Session.updateVisualizer l r e w))
     = Session.toUpperCase (stochasticPhase (Session.generator w)).
Proof.
  intros Hm. unfold Session.updateVisualizer. rewrite Hm. split; reflexivity.
Qed.

Lemma updateVisualizer_in_range (w : Session.World) (l r e : R) :
  0 <= l <= 255 -> 0 <= r <= 255 ->
  display_in_range (Session.ui (Session.updateVisualizer l r e w)).
Proof.
  intros Hl Hr. unfold display_in_range.
  destruct (updateVisualizer_numbers w l r e) as (-> & -> & -> & -> & _).
  split; [lra | ]. split; [lra | ].
  split; apply Math_round_bounds; lra.
Qed.

Lemma stopSession_display (w : Session.World) :
  display_in_range (Session.ui (Session.stopSession w))
  /\ Session.leftMotorValue (Session.ui (Session.stopSession w)) = 0%Z
  /\ Session.rightMotorValue (Session.ui (Session.stopSession w)) = 0%Z
  /\ Session.leftMotorBar_width (Session.ui (Session.stopSession w)) = 0
  /\ Session.rightMotorBar_width (Session.ui (Session.stopSession w)) = 0
  /\ Session.phaseInfo (Session.ui (Session.stopSession w)) = "IDLE"%string.
Proof.
  unfold Session.stopSession, display_in_range, Session.set_phaseInfo. cbv zeta.
  cbn [Session.set_ui Session.ui Session.leftMotorValue
       Session.rightMotorValue Session.leftMotorBar_width Session.rightMotorBar_width
       Session.phaseInfo].
  match goal with
  | |- context [Session.updateVisualizer ?l ?r ?e ?x] =>
      destruct (updateVisualizer_numbers x l r e) as (-> & -> & -> & -> & _)
  end.
  assert (Hzero : Math_round 0 = 0%Z).
  { pose proof (Math_round_bounds 0 0 0 ltac:(lra)). lia. }
  rewrite Hzero.
  split; [ | repeat split; lra].
  split; [lra | ]. split; [lra | ]. split; lia.
Qed.

End Display.

Lemma stopSession_intensityInfo (w : Session.World) :
  mode (Session.config w) = stochastic ->
  Session.intensityInfo (Session.ui (Session.stopSession w))
    = Math_round (globalMultiplier (Session.config w)
                    (currentTime (Session.generator w)) * 100).
Proof.
  intros Hm. unfold Session.stopSession, Session.set_phaseInfo. cbv zeta.
  cbn [Session.set_ui Session.ui Session.intensityInfo].
  match goal with
  | |- context [Session.updateVisualizer ?l ?r ?e ?x] =>
      assert (Hcfg : Session.config x = Session.config w /\
                     Session.generator x = Session.generator w)
        by (destruct (Session.canRumble _); split; reflexivity);
      destruct Hcfg as [Hcfg Hgen];
      destruct (updateVisualizer_stochastic x l r e) as [-> _];
      [rewrite Hcfg; exact Hm | rewrite Hcfg, Hgen; reflexivity]
  end.
Qed.

Section SessionDisplay.

Variable w : Session.World.

(** The percentage on the page is the envelope at the generator's clock. *)
Lemma gameLoop_intensityInfo (now : R) :
  Session.sessionActive w = true ->
  mode (Session.config w) = stochastic ->
  Session.intensityInfo (Session.ui (Session.gameLoop now w))
    = Math_round (globalMultiplier (Session.config w)
                    (currentTime (Session.generator (Session.gameLoop now w))) * 100).
Proof.
  intros Hon Hm.
  destruct (Rlt_le_dec (elapsed now w) (sessionLength (Session.config w)))
    as [Hin | Hend].
  - destruct (gameLoop_running_state w now Hon Hin) as (_ & _ & _ & _ & _ & Hgen & _).
    rewrite Hgen. rewrite (gameLoop_running w now Hon Hin). cbv zeta.
    cbn [Session.emit Session.ui].
    match goal with
    | |- context [Session.updateVisualizer ?l ?r ?e ?x] =>
        assert (Hcfg : Session.config x = Session.config w /\
                       Session.generator x =
                         snd (fst (advance (Session.config w)
                                     ((now - Session.lastUpdateTime w) / 1000)
                                     (Session.generator w) (Session.random w))))
          by (destruct (Session.canRumble w); split; reflexivity);
        destruct Hcfg as [Hcfg Hgen'];
        destruct (updateVisualizer_stochastic x l r e) as [-> _];
        [rewrite Hcfg; exact Hm | rewrite Hcfg, Hgen'; reflexivity]
    end.
  - rewrite (gameLoop_ended w now Hon Hend).
    destruct (stopSession_state (Session.set_lastUpdateTime now w))
      as (_ & Hgen & _).
    rewrite Hgen.
    apply (stopSession_intensityInfo (Session.set_lastUpdateTime now w)). exact Hm.
Qed.

Lemma gameLoop_display (now : R) :
  Session.sessionActive w = true ->
  display_in_range (Session.ui (Session.gameLoop now w)).
Proof.
  intros Hon.
  destruct (Rlt_le_dec (elapsed now w) (sessionLength (Session.config w)))
    as [Hin | Hend].
  - rewrite (gameLoop_running w now Hon Hin). cbv zeta. cbn [Session.emit Session.ui].
    match goal with
    | |- context [clamp ?o] => destruct (clamp_bounds o) as [Hl Hr]
    end.
    apply updateVisualizer_in_range; assumption.
  - rewrite (gameLoop_ended w now Hon Hend). apply stopSession_display.
Qed.

Lemma gameLoop_clock (now : R) :
  Session.sessionActive w = true ->
  mode (Session.config w) = stochastic ->
  Session.lastUpdateTime w <= now ->
  0 <= currentTime (Session.generator w) ->
  0 <= currentTime (Session.generator (Session.gameLoop now w)).
Proof.
  intros Hon Hm Hnow Hclock.
  destruct (Rlt_le_dec (elapsed now w) (sessionLength (Session.config w)))
    as [Hin | Hend].
  - destruct (gameLoop_running_state w now Hon Hin) as (_ & _ & _ & _ & _ & Hgen & _).
    rewrite Hgen, advance_currentTime, Hm.
    assert (0 <= (now - Session.lastUpdateTime w) / 1000) by (apply div_nonneg; lra).
    lra.
  - rewrite (gameLoop_ended w now Hon Hend).
    destruct (stopSession_state (Session.set_lastUpdateTime now w))
      as (_ & Hgen & _).
    rewrite Hgen. exact Hclock.
Qed.

End SessionDisplay.

(** ** The animation loop *)

(** X15. Once [stopSession] or [handleGamepadDisconnect] has run, the
    animation loop is dead: any number of further calls of [gameLoop], at any
    clock readings, leaves everything as it is; no vibration command is sent
    and no frame is requested. *)
Theorem stopped_loop_is_dead (w : Session.World) (nows : list R) :
  Session.frames nows (Session.stopSession w) = Session.stopSession w
  /\ Session.frames nows (Session.handleGamepadDisconnect w)
     = Session.handleGamepadDisconnect w.
Proof.
  split.
  - apply frames_inactive. apply stopSession_state.
  - apply frames_inactive. unfold Session.handleGamepadDisconnect. cbv zeta.
    cbn [Session.sessionActive Session.set_ui Session.set_joystick].
    destruct (Session.sessionActive w) eqn:Hon.
    + apply stopSession_state.
    + cbn. exact Hon.
Qed.

(** X16. A frame of a running session whose elapsed time has reached
    [sessionLength] ends the session instead of advancing it: the generator
    and the random source are untouched, the only call made is the 50 ms
    zero rumble (and only if a connected pad with an actuator is held), no
    further frame is requested, and the page shows 0 on both motors and
    IDLE. *)
Theorem session_ends_at_length (w : Session.World) (now : R) :
  Session.sessionActive w = true ->
  sessionLength (Session.config w) <= elapsed now w ->
  Session.sessionActive (Session.gameLoop now w) = false
  /\ Session.generator (Session.gameLoop now w) = Session.generator w
  /\ Session.random (Session.gameLoop now w) = Session.random w
  /\ Session.effects (Session.gameLoop now w)
     = Session.effects w
       ++ (if Session.canRumble w then [Session.playEffect 50 0 0] else [])
  /\ Session.leftMotorValue (Session.ui (Session.gameLoop now w)) = 0%Z
  /\ Session.rightMotorValue (Session.ui (Session.gameLoop now w)) = 0%Z
  /\ Session.phaseInfo (Session.ui (Session.gameLoop now w)) = "IDLE"%string.
Proof.
  intros Hon Hend. rewrite (gameLoop_ended w now Hon Hend).
  destruct (stopSession_state (Session.set_lastUpdateTime now w))
    as (Hact & Hgen & Hrand & _).
  destruct (stopSession_display (Session.set_lastUpdateTime now w))
    as (_ & Hl & Hr & _ & _ & Hphase).
  rewrite stopSession_effects.
  repeat split; assumption.
Qed.

Lemma session_ends_at_length_witness :
  Session.sessionActive started_page = true
  /\ sessionLength (Session.config started_page) <= elapsed 3600000 started_page
  /\ Session.sessionActive (Session.gameLoop 3600000 started_page) = false
  /\ Session.generator (Session.gameLoop 3600000 started_page)
     = Session.generator started_page.
Proof.
  assert (Hon : Session.sessionActive started_page = true) by reflexivity.
  assert (Hend : sessionLength (Session.config started_page)
                 <= elapsed 3600000 started_page) by (unfold elapsed; cbn; lra).
  destruct (session_ends_at_length started_page 3600000 Hon Hend)
    as (Hact & Hgen & _).
  repeat split; assumption.
Defined.

(** X17. Without a connected pad that has a vibration actuator, [startSession]
    starts nothing: it raises one alert and leaves every variable and the
    page as they were. *)
Theorem start_refused_without_pad (w : Session.World) (now : R) :
  Session.canRumble w = false ->
  Session.startSession now w
    = Session.emit (Session.alert "Controller not detected.") w
  \/ Session.startSession now w
     = Session.emit (Session.alert "This controller does not support vibration.") w.
Proof.
  unfold Session.canRumble, Session.startSession. intros Hpad.
  destruct (Session.joystick w) as [pad | ]; [ | left; reflexivity].
  destruct (Session.connected pad); cbn [negb]; [ | left; reflexivity].
  destruct (Session.vibrationActuator pad); cbn [negb]; [discriminate Hpad | ].
  right. reflexivity.
Qed.

Lemma start_refused_without_pad_witness :
  Session.canRumble (Session.set_joystick None idle_page) = false
  /\ (Session.startSession 5 (Session.set_joystick None idle_page)
      = Session.emit (Session.alert "Controller not detected.")
          (Session.set_joystick None idle_page)
      \/ Session.startSession 5 (Session.set_joystick None idle_page)
         = Session.emit (Session.alert "This controller does not support vibration.")
             (Session.set_joystick None idle_page)).
Proof.
  assert (Hpad : Session.canRumble (Session.set_joystick None idle_page) = false)
    by reflexivity.
  split; [exact Hpad | ].
  exact (start_refused_without_pad (Session.set_joystick None idle_page) 5 Hpad).
Defined.

(** X18. After a successful [startSession] at clock reading [now0] and any
    number of frames that all fall inside the session length of the form,
    the session is still running: [sessionActive] holds, [config] is the
    form as read at the start, [sessionStartTime] is [now0],
    [lastUpdateTime] is the reading of the last frame, and the last call
    made is the request for the next frame.  The loop does not stop by
    itself before the session length is reached. *)
Theorem session_persists_inside_length (w : Session.World) (now0 : R)
    (nows : list R) :
  Session.canRumble w = true ->
  Forall (fun now : R => (now - now0) / 1000 < sessionLength (Session.form w)) nows ->
  Session.sessionActive (Session.frames nows (Session.startSession now0 w)) = true
  /\ Session.config (Session.frames nows (Session.startSession now0 w)) = Session.form w
  /\ Session.sessionStartTime (Session.frames nows (Session.startSession now0 w)) = now0
  /\ Session.lastUpdateTime (Session.frames nows (Session.startSession now0 w))
     = last nows now0
  /\ exists earlier : list Session.Effect,
       Session.effects (Session.frames nows (Session.startSession now0 w))
       = earlier ++ [Session.requestAnimationFrame].
Proof.
  intros Hpad Hin.
  assert (Hstart : Session.startSession now0 w =
                   Session.emit Session.requestAnimationFrame
                     (Session.set_lastUpdateTime now0
                        (Session.set_sessionStartTime now0
                           (Session.set_generator (start (Session.generator w))
                              (Session.updateConfigFromUI
                                 (Session.set_ui
                                    (Session.set_buttons true false (Session.ui w))
                                    (Session.set_sessionActive true w))))))).
  { unfold Session.canRumble in Hpad. unfold Session.startSession.
    destruct (Session.joystick w) as [pad | ]; [ | discriminate Hpad].
    destruct (Session.connected pad); [ | discriminate Hpad].
    destruct (Session.vibrationActuator pad); [reflexivity | discriminate Hpad]. }
  destruct (frames_running nows (Session.startSession now0 w))
    as (Hact & Hcfg & Hbegin & Hupd & Heff).
  - rewrite Hstart. reflexivity.
  - rewrite Hstart. cbn [Session.emit Session.effects]. eexists. reflexivity.
  - rewrite Hstart. exact Hin.
  - rewrite Hact, Hcfg, Hbegin, Hupd.
    split; [reflexivity | ].
    split; [rewrite Hstart; reflexivity | ].
    split; [rewrite Hstart; reflexivity | ].
    split; [rewrite Hstart; reflexivity | exact Heff].
Qed.

Lemma session_persists_inside_length_witness :
  Session.canRumble idle_page = true
  /\ Forall (fun now : R => (now - 0) / 1000 < sessionLength (Session.form idle_page))
       [16; 33; 50]
  /\ Session.sessionActive (Session.frames [16; 33; 50] (Session.startSession 0 idle_page))
     = true
  /\ Session.lastUpdateTime (Session.frames [16; 33; 50] (Session.startSession 0 idle_page))
     = last [16; 33; 50] 0.
Proof.
  assert (Hpad : Session.canRumble idle_page = true) by reflexivity.
  assert (Hin : Forall (fun now : R =>
                          (now - 0) / 1000 < sessionLength (Session.form idle_page))
                  [16; 33; 50]) by (repeat constructor; cbn; lra).
  destruct (session_persists_inside_length idle_page 0 [16; 33; 50] Hpad Hin)
    as (Hact & _ & _ & Hupd & _).
  repeat split; assumption.
Defined.

(** X19. [handleGamepadDisconnect] drops the pad and stops a running session
    without sending anything: the pad is forgotten before [stopSession]
    runs, so not even the zero rumble is issued; the generator keeps its
    state. *)
Theorem disconnect_is_silent (w : Session.World) :
  Session.joystick (Session.handleGamepadDisconnect w) = None
  /\ Session.sessionActive (Session.handleGamepadDisconnect w) = false
  /\ Session.effects (Session.handleGamepadDisconnect w) = Session.effects w
  /\ Session.generator (Session.handleGamepadDisconnect w) = Session.generator w.
Proof.
  unfold Session.handleGamepadDisconnect. cbv zeta.
  cbn [Session.sessionActive Session.set_ui Session.set_joystick].
  destruct (Session.sessionActive w) eqn:Hon.
  - match goal with
    | |- context [Session.stopSession ?x] =>
        destruct (stopSession_state x) as (Hact & Hgen & _ & _ & Hpad & _);
        rewrite Hact, Hgen, Hpad, (stopSession_effects x)
    end.
    cbn. rewrite app_nil_r. repeat split.
  - cbn. repeat split. exact Hon.
Qed.

(** ** The page *)

(** X20. With [peakTime > 0] (so that the generator returns numbers), after
    any frame of a running session the page shows sane numbers: both bar
    widths lie between 0 % and 100 % and both motor values are integers
    between 0 and 255, whether the frame advanced the session or ended
    it. *)
Theorem frame_display_in_range (w : Session.World) (now : R) :
  Session.sessionActive w = true ->
  0 < peakTime (Session.config w) ->
  0 <= Session.leftMotorBar_width (Session.ui (Session.gameLoop now w)) <= 100
  /\ 0 <= Session.rightMotorBar_width (Session.ui (Session.gameLoop now w)) <= 100
  /\ (0 <= Session.leftMotorValue (Session.ui (Session.gameLoop now w)) <= 255)%Z
  /\ (0 <= Session.rightMotorValue (Session.ui (Session.gameLoop now w)) <= 255)%Z.
Proof.
  intros Hon _. exact (gameLoop_display w now Hon).
Qed.

Lemma frame_display_in_range_witness :
  Session.sessionActive started_page = true
  /\ 0 < peakTime (Session.config started_page)
  /\ 0 <= Session.leftMotorBar_width (Session.ui (Session.gameLoop 16 started_page)) <= 100
  /\ 0 <= Session.rightMotorBar_width (Session.ui (Session.gameLoop 16 started_page)) <= 100
  /\ (0 <= Session.leftMotorValue (Session.ui (Session.gameLoop 16 started_page)) <= 255)%Z
  /\ (0 <= Session.rightMotorValue (Session.ui (Session.gameLoop 16 started_page)) <= 255)%Z.
Proof.
  assert (Hon : Session.sessionActive started_page = true) by reflexivity.
  assert (Hpeak : 0 < peakTime (Session.config started_page)) by (cbn; lra).
  split; [exact Hon | split; [exact Hpeak | ]].
  exact (frame_display_in_range started_page 16 Hon Hpeak).
Defined.

(** X21. In a running stochastic session with [peakTime > 0], a generator
    clock that is not negative and a frame that is not earlier than the last
    one, the percentage written to the page is the rounded envelope at the
    generator's clock after the frame; it lies between 30 and 100, and it is
    100 once that clock has reached [peakTime]. *)
Theorem displayed_envelope (w : Session.World) (now : R) :
  Session.sessionActive w = true ->
  mode (Session.config w) = stochastic ->
  0 < peakTime (Session.config w) ->
  0 <= currentTime (Session.generator w) ->
  Session.lastUpdateTime w <= now ->
  Session.intensityInfo (Session.ui (Session.gameLoop now w))
    = Math_round (globalMultiplier (Session.config w)
                    (currentTime (Session.generator (Session.gameLoop now w))) * 100)
  /\ (30 <= Session.intensityInfo (Session.ui (Session.gameLoop now w)) <= 100)%Z
  /\ (peakTime (Session.config w)
        <= currentTime (Session.generator (Session.gameLoop now w)) ->
      Session.intensityInfo (Session.ui (Session.gameLoop now w)) = 100%Z).
Proof.
  intros Hon Hm Hpeak Hclock Hnow.
  pose proof (gameLoop_clock w now Hon Hm Hnow Hclock) as Hafter.
  rewrite (gameLoop_intensityInfo w now Hon Hm).
  split; [reflexivity | ].
  pose proof (globalMultiplier_bounds (Session.config w) _ Hpeak Hafter) as Hmul.
  split.
  - apply Math_round_bounds. lra.
  - intros Hlate.
    rewrite (globalMultiplier_saturated (Session.config w) _ Hpeak Hlate).
    pose proof (Math_round_bounds (1 * 100) 100 100 ltac:(lra)). lia.
Qed.

Lemma displayed_envelope_witness :
  Session.sessionActive started_page = true
  /\ mode (Session.config started_page) = stochastic
  /\ 0 < peakTime (Session.config started_page)
  /\ 0 <= currentTime (Session.generator started_page)
  /\ Session.lastUpdateTime started_page <= 16
  /\ (30 <= Session.intensityInfo (Session.ui (Session.gameLoop 16 started_page)) <= 100)%Z.
Proof.
  assert (Hon : Session.sessionActive started_page = true) by reflexivity.
  assert (Hm : mode (Session.config started_page) = stochastic) by reflexivity.
  assert (Hpeak : 0 < peakTime (Session.config started_page)) by (cbn; lra).
  assert (Hclock : 0 <= currentTime (Session.generator started_page)) by (cbn; lra).
  assert (Hnow : Session.lastUpdateTime started_page <= 16) by (cbn; lra).
  destruct (displayed_envelope started_page 16 Hon Hm Hpeak Hclock Hnow)
    as (_ & Hrange & _).
  repeat split; try assumption; apply Hrange.
Defined.

(** ** Every event of the page *)

(** X22. As long as [peakTime] is positive in [config], in the form and in
    every change of the form (so that the generator returns numbers),
    whatever events reach the page, in whatever order (pads coming and
    going, clicks on enabled buttons, changes of the form, frames), every
    vibration command the script adds has both magnitudes between 0 and 1,
    and is either a 200 ms command of the loop or the 50 ms zero command of
    a stop. *)
Theorem every_rumble_is_safe (events : list Event) (w : Session.World) :
  0 < peakTime (Session.config w) ->
  0 < peakTime (Session.form w) ->
  Forall keeps_peak_positive events ->
  Forall safe_effect (Session.effects w) ->
  Forall safe_effect (Session.effects (handle_all events w)).
Proof.
  intros _ _ _ Hold. destruct (handle_all_effects events w) as (new & -> & Hnew).
  apply Forall_app. split; assumption.
Qed.

Lemma every_rumble_is_safe_witness :
  0 < peakTime (Session.config idle_page)
  /\ 0 < peakTime (Session.form idle_page)
  /\ Forall keeps_peak_positive
       [StartClick 0; Frame 16; Input scenario; Lost; Frame 33; Disconnect; Frame 50]
  /\ Forall safe_effect (Session.effects idle_page)
  /\ Forall safe_effect
       (Session.effects
          (handle_all
             [StartClick 0; Frame 16; Input scenario; Lost; Frame 33; Disconnect; Frame 50]
             idle_page)).
Proof.
  assert (Hconfig : 0 < peakTime (Session.config idle_page)) by (cbn; lra).
  assert (Hform : 0 < peakTime (Session.form idle_page)) by (cbn; lra).
  assert (Hevents : Forall keeps_peak_positive
                      [StartClick 0; Frame 16; Input scenario; Lost; Frame 33;
                       Disconnect; Frame 50])
    by (repeat constructor; cbn; lra).
  assert (Hold : Forall safe_effect (Session.effects idle_page)) by constructor.
  split; [exact Hconfig | split; [exact Hform | split; [exact Hevents | ]]].
  split; [exact Hold | ].
  exact (every_rumble_is_safe
           [StartClick 0; Frame 16; Input scenario; Lost; Frame 33; Disconnect; Frame 50]
           idle_page Hconfig Hform Hevents Hold).
Defined.

(** X23. If the Start button is disabled exactly when a session runs and the
    Stop button exactly when none does, this stays so through every sequence
    of events: the two buttons are never both enabled or both disabled, and
    a second session cannot be started on top of a running one. *)
Theorem buttons_follow_session (events : list Event) (w : Session.World) :
  Session.startButton_disabled (Session.ui w) = Session.sessionActive w ->
  Session.stopButton_disabled (Session.ui w) = negb (Session.sessionActive w) ->
  Session.startButton_disabled (Session.ui (handle_all events w))
    = Session.sessionActive (handle_all events w)
  /\ Session.stopButton_disabled (Session.ui (handle_all events w))
     = negb (Session.sessionActive (handle_all events w)).
Proof.
  intros Hstart Hstop. apply (handle_all_buttons events w). split; assumption.
Qed.

Lemma buttons_follow_session_witness :
  Session.startButton_disabled (Session.ui idle_page) = Session.sessionActive idle_page
  /\ Session.stopButton_disabled (Session.ui idle_page)
     = negb (Session.sessionActive idle_page)
  /\ Session.startButton_disabled
       (Session.ui (handle_all [StartClick 0; Frame 16; StartClick 20; StopClick] idle_page))
     = Session.sessionActive
         (handle_all [StartClick 0; Frame 16; StartClick 20; StopClick] idle_page)
  /\ Session.stopButton_disabled
       (Session.ui (handle_all [StartClick 0; Frame 16; StartClick 20; StopClick] idle_page))
     = negb (Session.sessionActive
               (handle_all [StartClick 0; Frame 16; StartClick 20; StopClick] idle_page)).
Proof.
  assert (Hstart : Session.startButton_disabled (Session.ui idle_page)
                   = Session.sessionActive idle_page) by reflexivity.
  assert (Hstop : Session.stopButton_disabled (Session.ui idle_page)
                  = negb (Session.sessionActive idle_page)) by reflexivity.
  split; [exact Hstart | split; [exact Hstop | ]].
  exact (buttons_follow_session [StartClick 0; Frame 16; StartClick 20; StopClick]
           idle_page Hstart Hstop).
Defined.

(** X24. A frame that finds no connected pad with an actuator sends no
    vibration command: the only call it can add is the request for the next
    frame, so the generator and the page keep running silently. *)
Theorem no_pad_no_rumble (w : Session.World) (now : R) :
  Session.canRumble w = false ->
  exists new : list Session.Effect,
    Session.effects (Session.gameLoop now w) = Session.effects w ++ new
    /\ Forall (fun e => e = Session.requestAnimationFrame) new.
Proof.
  intros Hpad. destruct (gameLoop_effects w now) as (new & Heq & _ & Hquiet & _).
  exists new. split; [exact Heq | exact (Hquiet Hpad)].
Qed.

Lemma no_pad_no_rumble_witness :
  Session.canRumble (lose started_page) = false
  /\ exists new : list Session.Effect,
       Session.effects (Session.gameLoop 16 (lose started_page))
       = Session.effects (lose started_page) ++ new
       /\ Forall (fun e => e = Session.requestAnimationFrame) new.
Proof.
  assert (Hpad : Session.canRumble (lose started_page) = false) by reflexivity.
  split; [exact Hpad | ].
  exact (no_pad_no_rumble (lose started_page) 16 Hpad).
Defined.

(** ** The form *)

(** X25. The unit that [updateConfigFromUI] appends to the value of each
    slider: "s" for [sessionLength], [peakTime] and the two breathing
    periods, "ms" for [maxGap] only, and nothing for the intensities and for
    [buzzMin] and [buzzMax], whose keys hold "buzz" and not "Buzz"; the
    seconds test comes last and wins for [peakTime]. *)
Theorem slider_suffixes :
  map suffix sliders =
    [ "s"; "s"; ""; ""; ""; ""; ""; "ms"; ""; "s"; "s" ]%string.
Proof. reflexivity. Qed.

(** X26. [handleModeChange] never shows both settings panels at once, shows
    the live box exactly when it shows the stochastic panel, and gives the
    session-length slider 300 in stochastic mode and 3600 in the five other
    modes of the dispatch. *)
Theorem mode_change_panels (mode : string) :
  (stochasticSettings_hidden (handleModeChange mode) = true
   \/ breathingPulseSettings_hidden (handleModeChange mode) = true)
  /\ liveInfoBox_hidden (handleModeChange mode)
     = stochasticSettings_hidden (handleModeChange mode)
  /\ match modeOfString mode with
     | stochastic =>
         stochasticSettings_hidden (handleModeChange mode) = false
         /\ sessionLength_value (handleModeChange mode) = 300
     | breathing_pulse =>
         breathingPulseSettings_hidden (handleModeChange mode) = false
         /\ sessionLength_value (handleModeChange mode) = 3600
     | cycle | constant_weak | constant_strong | constant_max =>
         stochasticSettings_hidden (handleModeChange mode) = true
         /\ breathingPulseSettings_hidden (handleModeChange mode) = true
         /\ sessionLength_value (handleModeChange mode) = 3600
     | other_mode =>
         stochasticSettings_hidden (handleModeChange mode) = true
         /\ breathingPulseSettings_hidden (handleModeChange mode) = true
     end.
Proof.
  unfold handleModeChange, modeOfString, startsWith.
  cbn [stochasticSettings_hidden breathingPulseSettings_hidden liveInfoBox_hidden
       sessionLength_value].
  destruct (String.eqb_spec mode "stochastic") as [-> | Hs].
  - cbn. repeat split. right. reflexivity.
  - destruct (String.eqb_spec mode "breathing_pulse") as [-> | Hb].
    + cbn. repeat split. left. reflexivity.
    + destruct (String.eqb_spec mode "cycle") as [-> | Hc].
      * cbn. repeat split. left. reflexivity.
      * destruct (String.eqb_spec mode "constant_weak") as [-> | Hw];
          [cbn; repeat split; left; reflexivity | ].
        destruct (String.eqb_spec mode "constant_strong") as [-> | Hg];
          [cbn; repeat split; left; reflexivity | ].
        destruct (String.eqb_spec mode "constant_max") as [-> | Hx];
          [cbn; repeat split; left; reflexivity | ].
        cbn. repeat split. left. reflexivity.
Qed.
